(** * Test data factory and response validators (tests/helpers/testData.js)

    A shallow embedding of the two helper classes [TestDataFactory] and
    [ResponseValidators] together with the fragment of the JavaScript
    runtime they rely on: [typeof], truthiness, the [in] operator, property
    reads through the prototype chain, object spread, [ToString],
    [String.prototype.trim], [Array.prototype.join] and anchored regular
    expressions.

    Modelling decisions.
    - A JavaScript string is the sequence of its UTF-16 code units; the
      model keeps the code units below 256, one [ascii] each.
    - A JavaScript number is represented by the shortest decimal numeral
      that reads back to it, the numeral [Number::toString] prints; the
      type [number] also holds numerals that no binary64 value owns, and
      every statement below holds for those as well.
    - A [value] is plain data: what [JSON.parse] or an object literal of
      data produces. Objects with accessors, proxies, symbols and class
      instances are outside the model.  The members a plain object or an
      array inherits from [Object.prototype] and [Array.prototype] are
      visible to [in] and to property reads, and are named by [Builtin].
    - [Date.now()] and [Math.random()] are inputs, gathered in [World];
      the random number is a binary64 fraction, and its product with 1000
      is rounded as the hardware rounds it. *)

From Stdlib Require Import ZArith Ascii String List Bool Lia.
From stdpp Require Import base decidable option list strings pretty gmap fin_maps.

#[local] Set Warnings "-register-all,-clear-no-such-hyp".
#[local] Open Scope Z_scope.

(* ===================================================================== *)
(** ** Strings *)
(* ===================================================================== *)

Module Str.

Definition code (c : ascii) : N := N_of_ascii c.

(** WhiteSpace and LineTerminator code units below 256: TAB, LF, VT, FF,
    CR, SP and NBSP.  [trim] and the class [\s] share this set. *)
Definition is_whitespace (c : ascii) : bool :=
  existsb (N.eqb (code c)) [9; 10; 11; 12; 13; 32; 160]%N.

Fixpoint all (p : ascii → bool) (s : string) : bool :=
  match s with
  | EmptyString => true
  | String c s' => p c && all p s'
  end.

Fixpoint trimStart (s : string) : string :=
  match s with
  | EmptyString => EmptyString
  | String c s' => if is_whitespace c then trimStart s' else s
  end.

Fixpoint trimEnd (s : string) : string :=
  match s with
  | EmptyString => EmptyString
  | String c s' =>
      match trimEnd s' with
      | EmptyString => if is_whitespace c then EmptyString else String c EmptyString
      | r => String c r
      end
  end.

(** [String.prototype.trim] *)
Definition trim (s : string) : string := trimEnd (trimStart s).

(** [String.prototype.repeat] *)
Fixpoint repeat (s : string) (n : nat) : string :=
  match n with
  | O => EmptyString
  | S n' => s +:+ repeat s n'
  end.

(** [Array.prototype.join] on an array of strings *)
Fixpoint join (sep : string) (l : list string) : string :=
  match l with
  | [] => EmptyString
  | [x] => x
  | x :: rest => x +:+ sep +:+ join sep rest
  end.

Definition take (n : nat) (s : string) : string := substring 0 n s.
Definition drop (n : nat) (s : string) : string := substring n (String.length s - n) s.

(** [s] occurs in [t] *)
Definition occurs_in (s t : string) : Prop :=
  ∃ before after, t = before +:+ s +:+ after.

Definition dquote : string := String "034"%char EmptyString.

End Str.

(* ===================================================================== *)
(** ** Numbers *)
(* ===================================================================== *)

(** [Finite neg ds n] is the number [(-1)^neg * 0.ds * 10^n]: [ds] are the
    decimal digits of the shortest numeral, without leading or trailing
    zero, and [n] is the decimal exponent, as in the steps of
    [Number::toString]. *)
Inductive number : Type :=
| NaN
| Infinity (neg : bool)
| Zero (neg : bool)
| Finite (neg : bool) (digits : string) (n : Z).

Module Num.

Definition sign (neg : bool) : string := if neg then "-" else "".

Definition zeros (n : Z) : string := Str.repeat "0" (Z.to_nat n).

(** Steps 6 to 10 of [Number::toString] for radix 10. *)
Definition format (ds : string) (n : Z) : string :=
  let k := Z.of_nat (String.length ds) in
  if (k <=? n) && (n <=? 21) then ds +:+ zeros (n - k)
  else if (0 <? n) && (n <=? 21) then
    Str.take (Z.to_nat n) ds +:+ "." +:+ Str.drop (Z.to_nat n) ds
  else if (-6 <? n) && (n <=? 0) then "0." +:+ zeros (- n) +:+ ds
  else
    let e := n - 1 in
    let es := (if e <? 0 then "-" else "+") +:+ pretty (Z.abs e) in
    if k =? 1 then ds +:+ "e" +:+ es
    else Str.take 1 ds +:+ "." +:+ Str.drop 1 ds +:+ "e" +:+ es.

(** [Number::toString] *)
Definition toString (x : number) : string :=
  match x with
  | NaN => "NaN"
  | Zero _ => "0"
  | Infinity neg => sign neg +:+ "Infinity"
  | Finite neg ds n => sign neg +:+ format ds n
  end.

(** [x <= 0]: false on NaN. *)
Definition le_zero (x : number) : bool :=
  match x with
  | NaN => false
  | Zero _ => true
  | Infinity neg => neg
  | Finite neg _ _ => neg
  end.

(** [0 < x], the mathematical reading of a positive number. *)
Definition positive (x : number) : bool :=
  match x with
  | Infinity false | Finite false _ _ => true
  | _ => false
  end.

(** ToBoolean on numbers: [0], [-0] and [NaN] are falsy. *)
Definition truthy (x : number) : bool :=
  match x with
  | NaN | Zero _ => false
  | _ => true
  end.

Fixpoint stripZeros (s : string) : string :=
  match s with
  | EmptyString => EmptyString
  | String c s' =>
      match stripZeros s' with
      | EmptyString => if Ascii.eqb c "0" then EmptyString else String c EmptyString
      | r => String c r
      end
  end.

(** The number with integer value [z]. *)
Definition of_Z (z : Z) : number :=
  match z with
  | Z0 => Zero false
  | Zpos p => let ds := pretty (Npos p) in
              Finite false (stripZeros ds) (Z.of_nat (String.length ds))
  | Zneg p => let ds := pretty (Npos p) in
              Finite true (stripZeros ds) (Z.of_nat (String.length ds))
  end.

End Num.

(* ===================================================================== *)
(** ** Values, exceptions and the runtime operations *)
(* ===================================================================== *)

(** Plain data.  An object is the finite map of its own enumerable
    properties; its prototype is [Object.prototype], an array's is
    [Array.prototype]. *)
Inductive value : Type :=
| VUndefined
| VNull
| VBool (b : bool)
| VNum (n : number)
| VStr (s : string)
| VObj (props : gmap string value)
| VArr (elems : list value).

(** The result of a property read: a datum, or a member inherited from a
    built-in prototype, named by its path ("Object.prototype.toString"). *)
Inductive jsref : Type :=
| Plain (v : value)
| Builtin (path : string).

(** What a [throw] carries: [new Error(message)], or the TypeError the
    runtime raises by itself. *)
Inductive exn : Type :=
| Error (message : string)
| TypeError.

Inductive result (A : Type) : Type :=
| Return (a : A)
| Throw (e : exn).
Arguments Return {A} a.
Arguments Throw {A} e.

#[global] Instance result_ret : MRet result := @Return.
#[global] Instance result_bind : MBind result := λ A B k r,
  match r with
  | Return a => k a
  | Throw e => Throw e
  end.
#[global] Instance result_fmap : FMap result := λ A B f r,
  match r with
  | Return a => Return (f a)
  | Throw e => Throw e
  end.

(** [mapM] and [filter] with a callback that may throw. *)
Fixpoint mapM {A B : Type} (f : A → result B) (l : list A) : result (list B) :=
  match l with
  | [] => Return []
  | x :: l' => y ← f x; ys ← mapM f l'; Return (y :: ys)
  end.

Fixpoint filterM {A : Type} (f : A → result bool) (l : list A) : result (list A) :=
  match l with
  | [] => Return []
  | x :: l' => b ← f x; ys ← filterM f l'; Return (if (b : bool) then x :: ys else ys)
  end.

Definition succeeds {A : Type} (r : result A) : Prop := ∃ a, r = Return a.
Definition fails {A : Type} (r : result A) : Prop := ∃ e, r = Throw e.
Definition fails_with {A : Type} (r : result A) (message : string) : Prop :=
  r = Throw (Error message).

(** Own and inherited property names of the built-in prototypes, each with
    the path of the member it denotes. *)
Definition Object_prototype : list (string * string) :=
  [ ("constructor", "Object");
    ("__defineGetter__", "Object.prototype.__defineGetter__");
    ("__defineSetter__", "Object.prototype.__defineSetter__");
    ("hasOwnProperty", "Object.prototype.hasOwnProperty");
    ("__lookupGetter__", "Object.prototype.__lookupGetter__");
    ("__lookupSetter__", "Object.prototype.__lookupSetter__");
    ("isPrototypeOf", "Object.prototype.isPrototypeOf");
    ("propertyIsEnumerable", "Object.prototype.propertyIsEnumerable");
    ("toString", "Object.prototype.toString");
    ("valueOf", "Object.prototype.valueOf");
    ("__proto__", "Object.prototype");
    ("toLocaleString", "Object.prototype.toLocaleString") ].

Definition Array_prototype_methods : list string :=
  [ "at"; "concat"; "copyWithin"; "fill"; "find"; "findIndex"; "findLast";
    "findLastIndex"; "lastIndexOf"; "pop"; "push"; "reverse"; "shift";
    "unshift"; "slice"; "sort"; "splice"; "includes"; "indexOf"; "join";
    "keys"; "entries"; "values"; "forEach"; "filter"; "flat"; "flatMap";
    "map"; "every"; "some"; "reduce"; "reduceRight"; "toLocaleString";
    "toString"; "toReversed"; "toSorted"; "toSpliced"; "with" ].

Definition Array_prototype : list (string * string) :=
  [ ("constructor", "Array"); ("__proto__", "Array.prototype") ]
  ++ map (fun m => (m, "Array.prototype." +:+ m)) Array_prototype_methods
  ++ Object_prototype.

Fixpoint assoc (k : string) (l : list (string * string)) : option string :=
  match l with
  | [] => None
  | (k', v) :: l' => if String.eqb k k' then Some v else assoc k l'
  end.

Module JS.

(** ToBoolean *)
Definition truthy (v : value) : bool :=
  match v with
  | VUndefined | VNull => false
  | VBool b => b
  | VNum n => Num.truthy n
  | VStr s => negb (String.eqb s "")
  | VObj _ | VArr _ => true
  end.

Definition typeof (v : value) : string :=
  match v with
  | VUndefined => "undefined"
  | VNull => "object"
  | VBool _ => "boolean"
  | VNum _ => "number"
  | VStr _ => "string"
  | VObj _ | VArr _ => "object"
  end.

(** [typeof] of a property read; the inherited members are functions,
    the two prototype objects apart. *)
Definition typeof_ref (r : jsref) : string :=
  match r with
  | Plain v => typeof v
  | Builtin path =>
      if String.eqb path "Object.prototype" || String.eqb path "Array.prototype"
      then "object" else "function"
  end.

Definition truthy_ref (r : jsref) : bool :=
  match r with
  | Plain v => truthy v
  | Builtin _ => true
  end.

(** The name of the array index [i]. *)
Definition index_key (i : nat) : string := pretty i.

Definition index_keys (n : nat) : list string := map index_key (seq 0 n).

(** Own keys of an array value, indices before [length]. *)
Definition array_own (elems : list value) : list (string * value) :=
  zip (index_keys (length elems)) elems.

Fixpoint lookup_own (k : string) (l : list (string * value)) : option value :=
  match l with
  | [] => None
  | (k', v) :: l' => if String.eqb k k' then Some v else lookup_own k l'
  end.

(** [k in v].  The operator raises a TypeError on a primitive. *)
Definition has_property (k : string) (v : value) : result bool :=
  match v with
  | VObj props =>
      Return (bool_decide (is_Some (props !! k)) || bool_decide (is_Some (assoc k Object_prototype)))
  | VArr elems =>
      Return (bool_decide (is_Some (lookup_own k (array_own elems)))
              || String.eqb k "length"
              || bool_decide (is_Some (assoc k Array_prototype)))
  | _ => Throw TypeError
  end.

(** [v.k] and [v[k]] on an object or an array: the own property, else the
    inherited member, else [undefined].  No function below reads a
    property of a primitive: the validators test [typeof] first, and
    [createInvalidData] reads an object literal. *)
Definition get_property (v : value) (k : string) : jsref :=
  match v with
  | VObj props =>
      match props !! k with
      | Some x => Plain x
      | None =>
          match assoc k Object_prototype with
          | Some path => Builtin path
          | None => Plain VUndefined
          end
      end
  | VArr elems =>
      match lookup_own k (array_own elems) with
      | Some x => Plain x
      | None =>
          if String.eqb k "length" then Plain (VNum (Num.of_Z (Z.of_nat (length elems))))
          else match assoc k Array_prototype with
               | Some path => Builtin path
               | None => Plain VUndefined
               end
      end
  | _ => Plain VUndefined
  end.

(** ToString.  An object with an own [toString] property holds a datum
    there, which is not callable; [valueOf] then yields no primitive
    either (own: not callable, inherited: returns the object), and the
    conversion raises a TypeError.  Without one, the inherited
    [Object.prototype.toString] answers.  An array is joined with commas,
    [undefined] and [null] elements printing as the empty string. *)
Fixpoint ToString (v : value) : result string :=
  match v with
  | VUndefined => Return "undefined"
  | VNull => Return "null"
  | VBool b => Return (if b then "true" else "false")
  | VNum n => Return (Num.toString n)
  | VStr s => Return s
  | VObj props =>
      match props !! "toString" with
      | Some _ => Throw TypeError
      | None => Return "[object Object]"
      end
  | VArr elems =>
      parts ← mapM (fun e => match e with
                             | VUndefined | VNull => Return ""
                             | _ => ToString e
                             end) elems;
      Return (Str.join "," parts)
  end.

(** The characters of a string as an array-like of one-character strings. *)
Fixpoint chars (s : string) : list value :=
  match s with
  | EmptyString => []
  | String c s' => VStr (String c EmptyString) :: chars s'
  end.

(** The own enumerable properties copied by a spread [{...v}]. *)
Definition spread (v : value) : gmap string value :=
  match v with
  | VObj props => props
  | VArr elems => list_to_map (array_own elems)
  | VStr s => list_to_map (array_own (chars s))
  | _ => ∅
  end.

End JS.

(** The last segment of a dotted path. *)
Fixpoint last_segment (acc path : string) : string :=
  match path with
  | EmptyString => acc
  | String c rest =>
      if Ascii.eqb c "." then last_segment EmptyString rest
      else last_segment (acc +:+ String c EmptyString) rest
  end.

(** ToString of a property read.  A built-in function prints its source
    text; [Object.prototype] prints as an object, [Array.prototype] as the
    empty array. *)
Definition ToString_ref (r : jsref) : result string :=
  match r with
  | Plain v => JS.ToString v
  | Builtin path =>
      if String.eqb path "Object.prototype" then Return "[object Object]"
      else if String.eqb path "Array.prototype" then Return ""
      else Return ("function " +:+ last_segment "" path +:+ "() { [native code] }")
  end.

(* ===================================================================== *)
(** ** Regular expressions *)
(* ===================================================================== *)

Module RegExp.

(** Patterns: character classes, sequence, alternation and repetition.
    A literal character is the class of that character. *)
Inductive regex : Type :=
| Void
| Eps
| Class (p : ascii → bool)
| Seq (r1 r2 : regex)
| Alt (r1 r2 : regex)
| Star (r : regex).

(** [r+] *)
Definition Plus (r : regex) : regex := Seq r (Star r).

Definition Lit (c : ascii) : regex := Class (Ascii.eqb c).

Fixpoint nullable (r : regex) : bool :=
  match r with
  | Void => false
  | Eps => true
  | Class _ => false
  | Seq r1 r2 => nullable r1 && nullable r2
  | Alt r1 r2 => nullable r1 || nullable r2
  | Star _ => true
  end.

(** What is left of [r] to match after reading [c]. *)
Fixpoint deriv (c : ascii) (r : regex) : regex :=
  match r with
  | Void => Void
  | Eps => Void
  | Class p => if p c then Eps else Void
  | Seq r1 r2 =>
      if nullable r1 then Alt (Seq (deriv c r1) r2) (deriv c r2)
      else Seq (deriv c r1) r2
  | Alt r1 r2 => Alt (deriv c r1) (deriv c r2)
  | Star r1 => Seq (deriv c r1) (Star r1)
  end.

(** The match of [^r$] against the whole input. *)
Fixpoint matches (r : regex) (s : string) : bool :=
  match s with
  | EmptyString => nullable r
  | String c s' => matches (deriv c r) s'
  end.

(** The language of a pattern. *)
Inductive Lang : regex → string → Prop :=
| LEps : Lang Eps EmptyString
| LClass p c : p c = true → Lang (Class p) (String c EmptyString)
| LSeq r1 r2 s1 s2 : Lang r1 s1 → Lang r2 s2 → Lang (Seq r1 r2) (s1 +:+ s2)
| LAltL r1 r2 s : Lang r1 s → Lang (Alt r1 r2) s
| LAltR r1 r2 s : Lang r2 s → Lang (Alt r1 r2) s
| LStarNil r : Lang (Star r) EmptyString
| LStarCons r s1 s2 : Lang r s1 → Lang (Star r) s2 → Lang (Star r) (s1 +:+ s2).

(** [regex.test(v)]: the argument is converted with ToString first. *)
Definition test (r : regex) (v : jsref) : result bool :=
  str ← ToString_ref v; Return (matches r str).

End RegExp.

(* ===================================================================== *)
(** ** Object literals *)
(* ===================================================================== *)

(** The members of an object literal, evaluated left to right: a later
    member overwrites an earlier one of the same key. *)
Inductive member : Type :=
| Field (k : string) (v : value)
| SpreadOf (v : value).

Definition define (props : gmap string value) (x : member) : gmap string value :=
  match x with
  | Field k v => <[k := v]> props
  | SpreadOf v => JS.spread v ∪ props
  end.

Definition object_literal (ms : list member) : value := VObj (foldl define ∅ ms).

(** A default parameter [p = d]: the default replaces [undefined] only. *)
Definition default_param (arg d : value) : value :=
  match arg with
  | VUndefined => d
  | _ => arg
  end.

(* ===================================================================== *)
(** ** The clock and the random generator *)
(* ===================================================================== *)

(** A binary64 number at least 0 and below 1, as [mant * 2^expo] with a
    mantissa of at most 53 bits. *)
Record fraction : Type := { mant : Z; expo : Z }.

Definition fraction_ok (x : fraction) : Prop :=
  0 ≤ mant x < 2 ^ 53 ∧ expo x < 0 ∧ mant x < 2 ^ (- expo x).

Module Float.

(** [p * 2^e] rounded to 53 significant bits, to nearest, ties to even:
    the rounding of every binary64 operation. *)
Definition round53 (p e : Z) : Z * Z :=
  let extra := Z.log2 p + 1 - 53 in
  if extra <=? 0 then (p, e)
  else
    let q := p / 2 ^ extra in
    let r := p mod 2 ^ extra in
    let half := 2 ^ (extra - 1) in
    let up := (half <? r) || ((r =? half) && Z.odd q) in
    ((if up then q + 1 else q), e + extra).

(** [x * 1000]: the exact product, rounded. *)
Definition times1000 (x : fraction) : Z * Z := round53 (mant x * 1000) (expo x).

(** [Math.floor] of [m * 2^e]. *)
Definition floor (y : Z * Z) : Z :=
  let '(m, e) := y in
  if 0 <=? e then m * 2 ^ e else m / 2 ^ (- e).

End Float.

(** The readings one call of [generateId] takes: the clock, in integer
    milliseconds, and the random generator, a number in [0, 1). *)
Record World : Type := { Date_now : Z; Math_random : fraction }.

(** Time values stay within 8.64e15 ms of the epoch; [Math.random()] is
    at least 0 and below 1. *)
Definition World_ok (w : World) : Prop :=
  -8640000000000000 ≤ Date_now w ≤ 8640000000000000 ∧ fraction_ok (Math_random w).

Definition num (z : Z) : value := VNum (Num.of_Z z).

(* ===================================================================== *)
(** ** TestDataFactory *)
(* ===================================================================== *)

Module TestDataFactory.

(** [Math.floor(Math.random() * 1000)] *)
Definition offset (w : World) : Z := Float.floor (Float.times1000 (Math_random w)).

(** [Date.now() + Math.floor(Math.random() * 1000)], as the integer the
    returned number holds: both summands and the sum are integers below
    2^53, where the addition of numbers is exact. *)
Definition generateId (w : World) : Z := Date_now w + offset w.

(** The text a template literal interpolates for the number [id]. *)
Definition interpolate (id : Z) : string := Num.toString (Num.of_Z id).

Definition createPost (overrides : value) : value :=
  let overrides := default_param overrides (VObj ∅) in
  object_literal
    [ Field "userId" (num 1);
      Field "title" (VStr "Test Post Title");
      Field "body" (VStr "This is a test post body with meaningful content.");
      SpreadOf overrides ].

Definition createUser (w : World) (overrides : value) : value :=
  let overrides := default_param overrides (VObj ∅) in
  let id := generateId w in
  object_literal
    [ Field "name" (VStr "Test User");
      Field "username" (VStr ("testuser" +:+ interpolate id));
      Field "email" (VStr ("test" +:+ interpolate id +:+ "@example.com"));
      Field "address" (object_literal
        [ Field "street" (VStr "Test Street");
          Field "suite" (VStr "Apt. 123");
          Field "city" (VStr "Test City");
          Field "zipcode" (VStr "12345");
          Field "geo" (object_literal
            [ Field "lat" (VStr "0.0000");
              Field "lng" (VStr "0.0000") ]) ]);
      Field "phone" (VStr "1-234-567-8901");
      Field "website" (VStr "testuser.com");
      Field "company" (object_literal
        [ Field "name" (VStr "Test Company");
          Field "catchPhrase" (VStr "Testing excellence");
          Field "bs" (VStr "quality assurance") ]);
      SpreadOf overrides ].

Definition createComment (w : World) (overrides : value) : value :=
  let overrides := default_param overrides (VObj ∅) in
  let id := generateId w in
  object_literal
    [ Field "postId" (num 1);
      Field "name" (VStr "Test Comment");
      Field "email" (VStr ("commenter" +:+ interpolate id +:+ "@example.com"));
      Field "body" (VStr "This is a test comment with valuable feedback.");
      SpreadOf overrides ].

Definition invalidPatterns : value :=
  object_literal
    [ Field "emptyPost" (object_literal []);
      Field "missingRequiredFields" (object_literal [ Field "title" (VStr "Only Title") ]);
      Field "invalidTypes" (object_literal
        [ Field "userId" (VStr "not-a-number"); Field "title" (num 123) ]);
      Field "oversizedData" (object_literal
        [ Field "title" (VStr (Str.repeat "x" (N.to_nat 1000)));
          Field "body" (VStr (Str.repeat "y" (N.to_nat 10000))) ]);
      Field "sqlInjection" (object_literal
        [ Field "title" (VStr "'; DROP TABLE posts; --");
          Field "body" (VStr "1 OR 1=1") ]);
      Field "xssAttempt" (object_literal
        [ Field "title" (VStr ("<script>alert(" +:+ Str.dquote +:+ "xss" +:+ Str.dquote +:+ ")</script>"));
          Field "body" (VStr "<img src=x onerror=alert(1)>") ]) ].

(** [invalidPatterns[type] || {}]: the key is ToString of [type]. *)
Definition createInvalidData (type : value) : result jsref :=
  key ← JS.ToString type;
  let found := JS.get_property invalidPatterns key in
  Return (if JS.truthy_ref found then found else Plain (VObj ∅)).

End TestDataFactory.

(* ===================================================================== *)
(** ** ResponseValidators *)
(* ===================================================================== *)

Module ResponseValidators.

(** [!v || typeof v !== 'object'] *)
Definition not_an_object (v : value) : bool :=
  negb (JS.truthy v) || negb (String.eqb (JS.typeof v) "object").

(** [requiredFields.filter(field => !(field in v))] *)
Definition missing (requiredFields : list string) (v : value) : result (list string) :=
  filterM (λ field, negb <$> JS.has_property field v) requiredFields.

(** [typeof x !== 'number' || x <= 0]; the comparison is evaluated on
    numbers only. *)
Definition not_number_or_le_zero (x : jsref) : bool :=
  match x with
  | Plain (VNum n) => Num.le_zero n
  | _ => true
  end.

(** [typeof x !== 'string' || x.trim() === ''] *)
Definition not_string_or_blank (x : jsref) : bool :=
  match x with
  | Plain (VStr s) => String.eqb (Str.trim s) ""
  | _ => true
  end.

Definition validatePost (post : value) : result unit :=
  if not_an_object post then Throw (Error "Post must be an object") else
  let requiredFields := ["id"; "userId"; "title"; "body"] in
  missingFields ← missing requiredFields post;
  if (0 <? length missingFields)%nat then
    Throw (Error ("Post missing required fields: " +:+ Str.join ", " missingFields))
  else if not_number_or_le_zero (JS.get_property post "id") then
    Throw (Error "Post ID must be a positive number")
  else if not_number_or_le_zero (JS.get_property post "userId") then
    Throw (Error "User ID must be a positive number")
  else if not_string_or_blank (JS.get_property post "title") then
    Throw (Error "Post title must be a non-empty string")
  else if not_string_or_blank (JS.get_property post "body") then
    Throw (Error "Post body must be a non-empty string")
  else Return tt.

Definition not_space_or_at (c : ascii) : bool :=
  negb (Str.is_whitespace c || Ascii.eqb c "@").

(** [/^[^\s@]+@[^\s@]+\.[^\s@]+$/] *)
Definition emailRegex : RegExp.regex :=
  RegExp.Seq (RegExp.Plus (RegExp.Class not_space_or_at))
    (RegExp.Seq (RegExp.Lit "@")
       (RegExp.Seq (RegExp.Plus (RegExp.Class not_space_or_at))
          (RegExp.Seq (RegExp.Lit ".")
             (RegExp.Plus (RegExp.Class not_space_or_at))))).

Definition validateUser (user : value) : result unit :=
  if not_an_object user then Throw (Error "User must be an object") else
  let requiredFields := ["id"; "name"; "username"; "email"] in
  missingFields ← missing requiredFields user;
  if (0 <? length missingFields)%nat then
    Throw (Error ("User missing required fields: " +:+ Str.join ", " missingFields))
  else
    matched ← RegExp.test emailRegex (JS.get_property user "email");
    if negb matched then Throw (Error "User email must be valid format")
    else Return tt.

Definition validateComment (comment : value) : result unit :=
  if not_an_object comment then Throw (Error "Comment must be an object") else
  let requiredFields := ["id"; "postId"; "name"; "email"; "body"] in
  missingFields ← missing requiredFields comment;
  if (0 <? length missingFields)%nat then
    Throw (Error ("Comment missing required fields: " +:+ Str.join ", " missingFields))
  else Return tt.

End ResponseValidators.

(* ===================================================================== *)
(** ** The validators over a heap *)
(* ===================================================================== *)

(** Objects are shared by reference.  To state what a validator does to
    its argument and to the rest of the program state, the three
    validators are given a second time as programs over a heap: an
    argument is a primitive or a reference to a heap cell, every
    operation on it reads the cell, and array literals, the result of
    [filter], the regular expression and [new Error] allocate cells. *)
Module Heap.

Definition loc : Type := positive.

Inductive cell : Type :=
| Data (v : value)
| ErrorObject (message : string)
| RegExpObject (r : RegExp.regex).

Definition heap : Type := gmap loc cell.

Inductive arg : Type :=
| Prim (v : value)
| Ref (l : loc).

(** The value an argument denotes in a heap. *)
Definition deref (σ : heap) (a : arg) : value :=
  match a with
  | Prim v => v
  | Ref l => match σ !! l with
             | Some (Data v) => v
             | _ => VUndefined
             end
  end.

Definition allocated (σ : heap) (a : arg) : Prop :=
  match a with
  | Prim _ => True
  | Ref l => is_Some (σ !! l)
  end.

(** Programs: a state transformer that returns or throws. *)
Definition prog (A : Type) : Type := heap → result A * heap.

#[global] Instance prog_ret : MRet prog := λ A a σ, (Return a, σ).
#[global] Instance prog_bind : MBind prog := λ A B k m σ,
  match m σ with
  | (Return a, σ') => k a σ'
  | (Throw e, σ') => (Throw e, σ')
  end.

Definition alloc (c : cell) : prog loc := λ σ,
  let l := fresh (dom σ) in (Return l, <[l := c]> σ).

(** A read of the argument. *)
Definition inspect {A : Type} (f : value → result A) (a : arg) : prog A := λ σ,
  (f (deref σ a), σ).

(** [throw new Error(message)] *)
Definition throw_new_Error {A : Type} (message : string) : prog A := λ σ,
  let l := fresh (dom σ) in (Throw (Error message), <[l := ErrorObject message]> σ).

(** An array literal of strings. *)
Definition new_array (xs : list string) : prog loc :=
  alloc (Data (VArr (map VStr xs))).

Definition strings_of (v : value) : list string :=
  match v with
  | VArr elems => omap (λ e, match e with VStr s => Some s | _ => None end) elems
  | _ => []
  end.

Definition read_strings (l : loc) : prog (list string) :=
  inspect (λ v, Return (strings_of v)) (Ref l).

Definition read_regex (l : loc) : prog RegExp.regex := λ σ,
  match σ !! l with
  | Some (RegExpObject r) => (Return r, σ)
  | _ => (Throw TypeError, σ)
  end.

(** [fields.filter(field => !(field in v))]: a new array. *)
Definition filter_missing (fields : loc) (v : arg) : prog loc :=
  names ← read_strings fields;
  missing ← inspect (ResponseValidators.missing names) v;
  new_array missing.

Definition get (a : arg) (k : string) : prog jsref :=
  inspect (λ v, Return (JS.get_property v k)) a.

Definition validatePost (post : arg) : prog unit :=
  b ← inspect (λ v, Return (ResponseValidators.not_an_object v)) post;
  if (b : bool) then throw_new_Error "Post must be an object" else
  requiredFields ← new_array ["id"; "userId"; "title"; "body"];
  missingFields ← filter_missing requiredFields post;
  names ← read_strings missingFields;
  if (0 <? length names)%nat then
    throw_new_Error ("Post missing required fields: " +:+ Str.join ", " names)
  else
  id ← get post "id";
  if ResponseValidators.not_number_or_le_zero id then
    throw_new_Error "Post ID must be a positive number" else
  userId ← get post "userId";
  if ResponseValidators.not_number_or_le_zero userId then
    throw_new_Error "User ID must be a positive number" else
  title ← get post "title";
  if ResponseValidators.not_string_or_blank title then
    throw_new_Error "Post title must be a non-empty string" else
  body ← get post "body";
  if ResponseValidators.not_string_or_blank body then
    throw_new_Error "Post body must be a non-empty string"
  else mret tt.

Definition validateUser (user : arg) : prog unit :=
  b ← inspect (λ v, Return (ResponseValidators.not_an_object v)) user;
  if (b : bool) then throw_new_Error "User must be an object" else
  requiredFields ← new_array ["id"; "name"; "username"; "email"];
  missingFields ← filter_missing requiredFields user;
  names ← read_strings missingFields;
  if (0 <? length names)%nat then
    throw_new_Error ("User missing required fields: " +:+ Str.join ", " names)
  else
  emailRegex ← alloc (RegExpObject ResponseValidators.emailRegex);
  r ← read_regex emailRegex;
  matched ← inspect (λ v, RegExp.test r (JS.get_property v "email")) user;
  if negb matched then throw_new_Error "User email must be valid format"
  else mret tt.

Definition validateComment (comment : arg) : prog unit :=
  b ← inspect (λ v, Return (ResponseValidators.not_an_object v)) comment;
  if (b : bool) then throw_new_Error "Comment must be an object" else
  requiredFields ← new_array ["id"; "postId"; "name"; "email"; "body"];
  missingFields ← filter_missing requiredFields comment;
  names ← read_strings missingFields;
  if (0 <? length names)%nat then
    throw_new_Error ("Comment missing required fields: " +:+ Str.join ", " names)
  else mret tt.

Definition outcome {A : Type} (m : prog A) (σ : heap) : result A := fst (m σ).
Definition final {A : Type} (m : prog A) (σ : heap) : heap := snd (m σ).

End Heap.

(* ===================================================================== *)
(** ** Vocabulary of the statements *)
(* ===================================================================== *)

(** An object in the sense of the validators' first check: truthy, with
    [typeof] equal to "object". *)
Definition is_object (v : value) : bool :=
  match v with
  | VObj _ | VArr _ => true
  | _ => false
  end.

(** [k in v] on an object. *)
Definition has_key (k : string) (v : value) : bool :=
  match JS.has_property k v with
  | Return b => b
  | Throw _ => false
  end.

(** The required fields a value lacks. *)
Definition missing_fields (requiredFields : list string) (v : value) : list string :=
  List.filter (λ field, negb (has_key field v)) requiredFields.

Definition own (v : value) (k : string) : option value :=
  match v with
  | VObj props => props !! k
  | _ => None
  end.

(** A positive number: of type number and greater than zero. *)
Definition positive_number (x : jsref) : bool :=
  match x with
  | Plain (VNum n) => Num.positive n
  | _ => false
  end.

(** A string with a character that is not whitespace. *)
Definition non_blank_string (x : jsref) : bool :=
  match x with
  | Plain (VStr s) => negb (Str.all Str.is_whitespace s)
  | _ => false
  end.

Definition not_space (c : ascii) : bool := negb (Str.is_whitespace c).

(** The shape of an address: a local part, [@], a domain, [.], a tail,
    none of them empty; [local_ok], [domain_ok] and [tail_ok] say which
    characters each part may hold. *)
Definition address_shape (local_ok domain_ok tail_ok : ascii → bool) (s : string) : Prop :=
  ∃ l d t : string,
    s = l +:+ "@" +:+ d +:+ "." +:+ t
    ∧ l ≠ "" ∧ d ≠ "" ∧ t ≠ ""
    ∧ Str.all local_ok l = true ∧ Str.all domain_ok d = true ∧ Str.all tail_ok t = true.

(** The pattern in the words of the specification: one or more
    non-space-non-@ characters, @, one or more non-space-non-@ characters,
    a dot, one or more non-space characters. *)
Definition specified_email_pattern : string → Prop :=
  address_shape ResponseValidators.not_space_or_at ResponseValidators.not_space_or_at not_space.

(** The pattern of [emailRegex]: the tail excludes [@] as well. *)
Definition email_pattern : string → Prop :=
  address_shape ResponseValidators.not_space_or_at ResponseValidators.not_space_or_at
    ResponseValidators.not_space_or_at.

(** The names [createInvalidData] knows. *)
Definition kinds : list string :=
  [ "emptyPost"; "missingRequiredFields"; "invalidTypes"; "oversizedData";
    "sqlInjection"; "xssAttempt" ].

(** The defaults of the three factories, as the specification lists them. *)
Definition post_defaults : gmap string value :=
  {[ "userId" := num 1;
     "title" := VStr "Test Post Title";
     "body" := VStr "This is a test post body with meaningful content." ]}.

Definition comment_defaults (id : Z) : gmap string value :=
  {[ "postId" := num 1;
     "name" := VStr "Test Comment";
     "email" := VStr ("commenter" +:+ TestDataFactory.interpolate id +:+ "@example.com");
     "body" := VStr "This is a test comment with valuable feedback." ]}.

Definition user_defaults (id : Z) : gmap string value :=
  {[ "name" := VStr "Test User";
     "username" := VStr ("testuser" +:+ TestDataFactory.interpolate id);
     "email" := VStr ("test" +:+ TestDataFactory.interpolate id +:+ "@example.com");
     "address" := VObj {[ "street" := VStr "Test Street";
                          "suite" := VStr "Apt. 123";
                          "city" := VStr "Test City";
                          "zipcode" := VStr "12345";
                          "geo" := VObj {[ "lat" := VStr "0.0000"; "lng" := VStr "0.0000" ]} ]};
     "phone" := VStr "1-234-567-8901";
     "website" := VStr "testuser.com";
     "company" := VObj {[ "name" := VStr "Test Company";
                          "catchPhrase" := VStr "Testing excellence";
                          "bs" := VStr "quality assurance" ]} ]}.

(** The argument a factory sees when called without one. *)
Definition no_argument : value := VUndefined.

Fixpoint last_char (s : string) : option ascii :=
  match s with
  | EmptyString => None
  | String c EmptyString => Some c
  | String _ s' => last_char s'
  end.

Definition is_digit (c : ascii) : bool :=
  (48 <=? Str.code c)%N && (Str.code c <=? 57)%N.

(** The required fields of each validator. *)
Definition post_fields : list string := ["id"; "userId"; "title"; "body"].
Definition user_fields : list string := ["id"; "name"; "username"; "email"].
Definition comment_fields : list string := ["id"; "postId"; "name"; "email"; "body"].

(** A name that is neither an array index nor a member an object or an
    array inherits; every required field is such a name. *)
Definition plain_name (k : string) : bool :=
  match last_char k with
  | Some d => negb (is_digit d)
  | None => true
  end
  && negb (String.eqb k "length")
  && bool_decide (assoc k Array_prototype = None)
  && bool_decide (assoc k Object_prototype = None).

(** The three validators, by name. *)
Inductive validator : Type := ForPost | ForUser | ForComment.

Definition validate (V : validator) : value → result unit :=
  match V with
  | ForPost => ResponseValidators.validatePost
  | ForUser => ResponseValidators.validateUser
  | ForComment => ResponseValidators.validateComment
  end.

Definition validate_in_heap (V : validator) : Heap.arg → Heap.prog unit :=
  match V with
  | ForPost => Heap.validatePost
  | ForUser => Heap.validateUser
  | ForComment => Heap.validateComment
  end.

(** [runs m σ Q]: started in [σ], the program [m] ends with a result and
    a heap that satisfy [Q]. *)
Definition runs {A : Type} (m : Heap.prog A) (σ : Heap.heap)
    (Q : result A → Heap.heap → Prop) : Prop :=
  Q (Heap.outcome m σ) (Heap.final m σ).

(** The sample values of the specification. *)
Definition sample_post : gmap string value :=
  {[ "id" := num 1; "userId" := num 1; "title" := VStr "a"; "body" := VStr "b" ]}.

Definition sample_user (email : value) : gmap string value :=
  {[ "id" := num 1; "name" := VStr "n"; "username" := VStr "u"; "email" := email ]}.

Definition sample_comment : gmap string value :=
  {[ "id" := num 1; "postId" := num 1; "name" := VStr "n"; "email" := VStr "x";
     "body" := VStr "y" ]}.

(** A heap with the sample post in its first cell. *)
Definition shared_post : Heap.heap := {[ 1%positive := Heap.Data (VObj sample_post) ]}.

(** Two readings of the same millisecond with different random numbers. *)
Definition one_half : fraction := {| mant := 1; expo := -1 |}.
Definition one_quarter : fraction := {| mant := 1; expo := -2 |}.

Definition noon : World := {| Date_now := 1731844800000; Math_random := one_half |}.
Definition noon' : World := {| Date_now := 1731844800000; Math_random := one_quarter |}.

(** A reading 250 ms after [noon] with a random number 250 lower in the
    thousandths. *)
Definition later : World := {| Date_now := 1731844800250; Math_random := one_quarter |}.

(** The binary64 number nearest to 0.009, which lies below 9/1000. *)
Definition nine_thousandths : fraction := {| mant := 5188146770730811; expo := -59 |}.

(* ===================================================================== *)
(** ** Vocabulary of the further properties *)
(* ===================================================================== *)

(** The number of occurrences of [c] in [s]. *)
Fixpoint count_char (c : ascii) (s : string) : nat :=
  match s with
  | EmptyString => O
  | String c' s' => (if Ascii.eqb c' c then 1 else 0) + count_char c s'
  end.

(** The characters of a decimal numeral. *)
Definition digit_or_minus (c : ascii) : bool := is_digit c || Ascii.eqb c "-".

(** An argument that a spread copies nothing from. *)
Definition spreads_nothing (o : value) : bool :=
  match o with
  | VUndefined | VNull | VBool _ | VNum _ => true
  | _ => false
  end.

(** The message of a validator about the fields in [missing]. *)
Definition missing_message (what : string) (missing : list string) : string :=
  what +:+ " missing required fields: " +:+ Str.join ", " missing.

(** An update of post 1, as the tests of the API build it. *)
Definition update_of_post_1 : value :=
  VObj {[ "id" := num 1; "title" := VStr "Updated Title";
          "body" := VStr "Updated body content" ]}.

(** An update of user 1, as the tests of the API build it. *)
Definition update_of_user_1 : value :=
  VObj {[ "id" := num 1; "name" := VStr "Updated Name";
          "username" := VStr "updatedusername" ]}.

(** What [validateUser] throws on an [email] of a kind whose text is
    never an address: [undefined], [null], a boolean, or an object, whose
    conversion fails when it has a [toString] property of its own. *)
Definition email_refusal (email : value) : option exn :=
  match email with
  | VUndefined | VNull | VBool _ => Some (Error "User email must be valid format")
  | VObj props =>
      match props !! "toString" with
      | Some _ => Some TypeError
      | None => Some (Error "User email must be valid format")
      end
  | _ => None
  end.

(** A user whose [email] is a nested object. *)
Definition user_with_object_email : gmap string value :=
  sample_user (VObj {[ "address" := VStr "a@b.co" ]}).

(** A post with another field beside the four required ones. *)
Definition post_with_extra_field : gmap string value :=
  <["views" := VStr "many"]> sample_post.

(** A user without [id] and [name] whose [email] is no address. *)
Definition user_without_id_and_name : value :=
  VObj {[ "username" := VStr "u"; "email" := VStr "not-an-email" ]}.

(** A post with three violations: [id] is a string, [userId] is negative
    and [title] is blank. *)
Definition post_with_three_violations : value :=
  VObj {[ "id" := VStr "1"; "userId" := num (-1); "title" := VStr "   ";
          "body" := VStr "b" ]}.

(** A post whose identifiers are fine, whose [title] is [null] and whose
    [body] is empty. *)
Definition post_with_late_violations : value :=
  VObj {[ "id" := num 1; "userId" := num 2; "title" := VNull; "body" := VStr "" ]}.

(** The elements an array or a string is spread into, by index. *)
Definition array_like (o : value) : option (list value) :=
  match o with
  | VArr elems => Some elems
  | VStr s => Some (JS.chars s)
  | _ => None
  end.

(* ===================================================================== *)
(** ** Facts about strings *)
(* ===================================================================== *)

Section StringFacts.

Lemma app_cons c (s t : string) : String c s +:+ t = String c (s +:+ t).
Proof. reflexivity. Qed.

Lemma app_nil_l (s : string) : "" +:+ s = s.
Proof. reflexivity. Qed.

Lemma app_nil_r (s : string) : s +:+ "" = s.
Proof. induction s as [|c s IH]; [done | by rewrite app_cons, IH]. Qed.

Lemma app_assoc (s t u : string) : (s +:+ t) +:+ u = s +:+ t +:+ u.
Proof. induction s as [|c s IH]; [done | by rewrite !app_cons, IH]. Qed.

Lemma app_length (s t : string) :
  String.length (s +:+ t) = (String.length s + String.length t)%nat.
Proof. induction s as [|c s IH]; [done | rewrite app_cons; simpl; by rewrite IH]. Qed.

Lemma app_eq_nil (s t : string) : s +:+ t = "" → s = "" ∧ t = "".
Proof. destruct s; [done | rewrite app_cons; discriminate]. Qed.

(** Cancellation of a common suffix. *)
Lemma app_inv_tail (s t u : string) : s +:+ u = t +:+ u → s = t.
Proof.
  revert t. induction s as [|c s IH]; intros [|d t] H.
  - done.
  - apply (f_equal String.length) in H.
    rewrite app_nil_l, app_cons in H. simpl in H. rewrite app_length in H. lia.
  - apply (f_equal String.length) in H.
    rewrite app_nil_l, app_cons in H. simpl in H. rewrite app_length in H. lia.
  - rewrite !app_cons in H. injection H as -> H. f_equal. by apply IH.
Qed.

Lemma all_app p (s t : string) : Str.all p (s +:+ t) = Str.all p s && Str.all p t.
Proof.
  induction s as [|c s IH]; [done |].
  rewrite app_cons. simpl. by rewrite IH, andb_assoc.
Qed.

Lemma trimStart_nil_iff (s : string) :
  Str.trimStart s = "" ↔ Str.all Str.is_whitespace s = true.
Proof.
  induction s as [|c s IH]; simpl; [done |].
  destruct (Str.is_whitespace c); simpl; [done | split; discriminate].
Qed.

Lemma trimEnd_nil_iff (s : string) :
  Str.trimEnd s = "" ↔ Str.all Str.is_whitespace s = true.
Proof.
  induction s as [|c s IH]; simpl; [done |].
  destruct (Str.trimEnd s) eqn:E.
  - destruct (Str.is_whitespace c); simpl.
    + split; [intros _; by apply IH | done].
    + split; discriminate.
  - split; [discriminate |].
    intros [_ H]%andb_true_iff. apply IH in H. discriminate.
Qed.

Lemma trimStart_all (s : string) :
  Str.all Str.is_whitespace (Str.trimStart s) = Str.all Str.is_whitespace s.
Proof.
  induction s as [|c s IH]; simpl; [done |].
  destruct (Str.is_whitespace c) eqn:E; simpl; [done | by rewrite E].
Qed.

(** A string trims to the empty string exactly when it is made of
    whitespace only. *)
Lemma trim_blank_iff (s : string) :
  Str.trim s = "" ↔ Str.all Str.is_whitespace s = true.
Proof. unfold Str.trim. by rewrite trimEnd_nil_iff, trimStart_all. Qed.

Lemma occurs_in_refl (s : string) : Str.occurs_in s s.
Proof. exists "", "". by rewrite app_nil_l, app_nil_r. Qed.

Lemma occurs_in_app_l (s t u : string) : Str.occurs_in s t → Str.occurs_in s (t +:+ u).
Proof. intros (a & b & ->). exists a, (b +:+ u). by rewrite !app_assoc. Qed.

Lemma occurs_in_app_r (s t u : string) : Str.occurs_in s t → Str.occurs_in s (u +:+ t).
Proof. intros (a & b & ->). exists (u +:+ a), b. by rewrite !app_assoc. Qed.

(** Every joined element occurs in the joined text. *)
Lemma join_occurs (sep : string) (l : list string) (x : string) :
  x ∈ l → Str.occurs_in x (Str.join sep l).
Proof.
  induction l as [|y l IH]; intros Hx; [by apply elem_of_nil in Hx |].
  apply elem_of_cons in Hx as [-> | Hx].
  - destruct l; simpl; [apply occurs_in_refl | apply occurs_in_app_l, occurs_in_refl].
  - destruct l as [|z l]; [by apply elem_of_nil in Hx |].
    change (Str.join sep (y :: z :: l)) with (y +:+ sep +:+ Str.join sep (z :: l)).
    by apply occurs_in_app_r, occurs_in_app_r, IH.
Qed.

End StringFacts.

(* ===================================================================== *)
(** ** Facts about numbers and their numerals *)
(* ===================================================================== *)

Section NumberFacts.

Lemma repeat_S (s : string) (n : nat) : Str.repeat s (S n) = s +:+ Str.repeat s n.
Proof. reflexivity. Qed.

Lemma stripZeros_length (s : string) :
  (String.length (Num.stripZeros s) ≤ String.length s)%nat.
Proof.
  induction s as [|c s IH]; simpl; [done |].
  destruct (Num.stripZeros s); [destruct (Ascii.eqb c "0") |]; simpl in *; lia.
Qed.

(** Stripping the trailing zeros and writing them back is the identity. *)
Lemma stripZeros_pad (s : string) :
  Num.stripZeros s
    +:+ Str.repeat "0" (String.length s - String.length (Num.stripZeros s)) = s.
Proof.
  induction s as [|c s IH]; [done |].
  pose proof (stripZeros_length s) as Hlen.
  simpl Num.stripZeros. destruct (Num.stripZeros s) as [|a r] eqn:E.
  - rewrite app_nil_l in IH. simpl in IH. rewrite Nat.sub_0_r in IH.
    destruct (Ascii.eqb_spec c "0") as [-> | _].
    + rewrite app_nil_l. simpl String.length. rewrite Nat.sub_0_r, repeat_S.
      by rewrite IH.
    + simpl String.length. rewrite Nat.sub_succ, Nat.sub_0_r.
      by rewrite app_cons, app_nil_l, IH.
  - rewrite app_cons. simpl String.length. rewrite Nat.sub_succ.
    simpl String.length in IH. by rewrite IH.
Qed.

Lemma pretty_N_go_length (k : nat) (x : N) (s : string) :
  (x < 10 ^ N.of_nat k)%N →
  (String.length (pretty_N_go x s) ≤ k + String.length s)%nat.
Proof.
  revert x s. induction k as [|k IH]; intros x s Hx.
  - assert (x = 0%N) as -> by (simpl in Hx; lia). rewrite pretty_N_go_0. lia.
  - destruct (decide (x = 0%N)) as [-> | Hne]; [rewrite pretty_N_go_0; lia |].
    rewrite pretty_N_go_step by lia.
    etrans; [apply IH |]; [| simpl; lia].
    rewrite Nat2N.inj_succ, N.pow_succ_r' in Hx.
    apply N.Div0.div_lt_upper_bound. lia.
Qed.

Lemma pretty_pos_length (k : nat) (p : positive) :
  (Npos p < 10 ^ N.of_nat k)%N → (String.length (pretty (Npos p)) ≤ k)%nat.
Proof.
  intros Hp. unfold pretty, pretty_N. rewrite decide_False by done.
  pose proof (pretty_N_go_length k (Npos p) "" Hp) as H. simpl in H. lia.
Qed.

Lemma format_integer (ds : string) :
  (String.length ds ≤ 21)%nat →
  Num.format (Num.stripZeros ds) (Z.of_nat (String.length ds)) = ds.
Proof.
  intros Hlen. pose proof (stripZeros_length ds) as Hk. unfold Num.format.
  rewrite (proj2 (Z.leb_le _ _)) by lia. rewrite (proj2 (Z.leb_le _ _)) by lia.
  simpl. unfold Num.zeros.
  replace (Z.to_nat _) with (String.length ds - String.length (Num.stripZeros ds))%nat by lia.
  apply stripZeros_pad.
Qed.

(** An integer below 10^21 in magnitude prints as its decimal numeral. *)
Lemma toString_of_Z (z : Z) :
  Z.abs z < 10 ^ 21 → Num.toString (Num.of_Z z) = pretty z.
Proof.
  intros Hz. destruct z as [|p|p]; [done | |].
  - simpl. rewrite app_nil_l. apply format_integer, pretty_pos_length.
    change (N.of_nat 21) with 21%N. lia.
  - simpl. rewrite format_integer; [done |].
    apply pretty_pos_length. change (N.of_nat 21) with 21%N. lia.
Qed.

Lemma le_zero_false (n : number) :
  Num.le_zero n = false ↔ Num.positive n = true ∨ n = NaN.
Proof. destruct n as [|[]|[]|[] ds e]; simpl; intuition congruence. Qed.

Example toString_integer : Num.toString (Num.of_Z 1731000000123) = "1731000000123".
Proof. vm_compute. reflexivity. Qed.

Example toString_negative : Num.toString (Num.of_Z (-1200)) = "-1200".
Proof. vm_compute. reflexivity. Qed.

Example toString_fraction : Num.toString (Finite false "15" 1) = "1.5".
Proof. vm_compute. reflexivity. Qed.

Example toString_small : Num.toString (Finite false "1" (-6)) = "1e-7".
Proof. vm_compute. reflexivity. Qed.

Example toString_small_fixed : Num.toString (Finite false "12" (-5)) = "0.0000012".
Proof. vm_compute. reflexivity. Qed.

Example toString_large : Num.toString (Finite true "123" 22) = "-1.23e+21".
Proof. vm_compute. reflexivity. Qed.

End NumberFacts.

(* ===================================================================== *)
(** ** The matcher decides the language of a pattern *)
(* ===================================================================== *)

Section RegExpFacts.

Import RegExp.

Lemma Lang_Seq_inv r1 r2 s :
  Lang (Seq r1 r2) s ↔ ∃ s1 s2, s = s1 +:+ s2 ∧ Lang r1 s1 ∧ Lang r2 s2.
Proof.
  split.
  - inversion 1; subst. eauto.
  - intros (s1 & s2 & -> & H1 & H2). by constructor.
Qed.

Lemma Lang_Alt_inv r1 r2 s : Lang (Alt r1 r2) s ↔ Lang r1 s ∨ Lang r2 s.
Proof.
  split.
  - inversion 1; subst; auto.
  - intros [H | H]; [by apply LAltL | by apply LAltR].
Qed.

Lemma Lang_Class_inv p s : Lang (Class p) s ↔ ∃ c, s = String c "" ∧ p c = true.
Proof.
  split.
  - inversion 1; subst. eauto.
  - intros (c & -> & H). by constructor.
Qed.

Lemma Lang_Star_cons_inv r c s :
  Lang (Star r) (String c s) →
  ∃ s1 s2, s = s1 +:+ s2 ∧ Lang r (String c s1) ∧ Lang (Star r) s2.
Proof.
  intros H. remember (Star r) as r0 eqn:Er. remember (String c s) as s0 eqn:Es.
  induction H as [| | | | | |r' s1 s2 H1 _ H2 IH2]; try discriminate.
  injection Er as ->. destruct s1 as [|c' s1].
  - rewrite app_nil_l in Es. by apply IH2.
  - rewrite app_cons in Es. injection Es as <- <-. eauto.
Qed.

Lemma nullable_spec r : nullable r = true ↔ Lang r "".
Proof.
  split.
  - induction r as [| |p|r1 IH1 r2 IH2|r1 IH1 r2 IH2|r IH]; simpl; intros H;
      try discriminate.
    + constructor.
    + apply andb_true_iff in H as [H1 H2].
      change "" with ("" +:+ ""). constructor; auto.
    + apply orb_true_iff in H as [H | H]; [apply LAltL | apply LAltR]; auto.
    + constructor.
  - intros H. remember "" as s eqn:Es.
    induction H as [|p c Hp|r1 r2 s1 s2 _ IH1 _ IH2|r1 r2 s _ IH|r1 r2 s _ IH| |];
      simpl; try done.
    + apply app_eq_nil in Es as [-> ->]. by rewrite IH1, IH2.
    + by rewrite IH.
    + rewrite IH by done. apply orb_true_r.
Qed.

Lemma deriv_spec r c s : Lang (deriv c r) s ↔ Lang r (String c s).
Proof.
  revert s. induction r as [| |p|r1 IH1 r2 IH2|r1 IH1 r2 IH2|r IH]; intros s; simpl.
  - split; inversion 1.
  - split; inversion 1.
  - destruct (p c) eqn:Hp; split; inversion 1; subst.
    + by constructor.
    + constructor.
    + congruence.
  - assert (Lang (Seq (deriv c r1) r2) s ↔
            ∃ s1 s2, s = s1 +:+ s2 ∧ Lang r1 (String c s1) ∧ Lang r2 s2) as Hleft.
    { rewrite Lang_Seq_inv. by setoid_rewrite IH1. }
    assert (Lang (Seq r1 r2) (String c s) ↔
            (Lang r1 "" ∧ Lang r2 (String c s)) ∨
            ∃ s1 s2, s = s1 +:+ s2 ∧ Lang r1 (String c s1) ∧ Lang r2 s2) as Hright.
    { rewrite Lang_Seq_inv. split.
      - intros ([|c' s1] & s2 & E & H1 & H2).
        + rewrite app_nil_l in E. subst s2. auto.
        + rewrite app_cons in E. injection E as -> ->. right. eauto.
      - intros [[H1 H2] | (s1 & s2 & -> & H1 & H2)].
        + exists "", (String c s). auto.
        + exists (String c s1), s2. auto. }
    destruct (nullable r1) eqn:Hn.
    + rewrite Lang_Alt_inv, Hleft, Hright, IH2, <- nullable_spec, Hn. tauto.
    + rewrite Hleft, Hright, <- nullable_spec, Hn. intuition discriminate.
  - by rewrite !Lang_Alt_inv, IH1, IH2.
  - rewrite Lang_Seq_inv. split.
    + intros (s1 & s2 & -> & H1 & H2). apply IH in H1.
      rewrite <- app_cons. by constructor.
    + intros (s1 & s2 & -> & H1 & H2)%Lang_Star_cons_inv.
      exists s1, s2. by rewrite IH.
Qed.

(** [matches] accepts exactly the strings of the language. *)
Lemma matches_spec r s : matches r s = true ↔ Lang r s.
Proof.
  revert r. induction s as [|c s IH]; intros r; simpl.
  - apply nullable_spec.
  - by rewrite IH, deriv_spec.
Qed.

Lemma Lang_Star_Class p s : Lang (Star (Class p)) s ↔ Str.all p s = true.
Proof.
  split.
  - intros H. remember (Star (Class p)) as r eqn:Er.
    induction H as [| | | | | |r' s1 s2 H1 _ H2 IH2]; try discriminate; [done |].
    injection Er as ->. apply Lang_Class_inv in H1 as (c & -> & Hc).
    rewrite app_cons, app_nil_l. simpl. by rewrite Hc, IH2.
  - induction s as [|c s IH]; simpl; [constructor |].
    intros [Hc Hs]%andb_true_iff.
    change (String c s) with (String c "" +:+ s). constructor; [by constructor | auto].
Qed.

Lemma Lang_Plus_Class p s : Lang (Plus (Class p)) s ↔ s ≠ "" ∧ Str.all p s = true.
Proof.
  unfold Plus. rewrite Lang_Seq_inv. split.
  - intros (s1 & s2 & -> & (c & -> & Hc)%Lang_Class_inv & H2%Lang_Star_Class).
    rewrite app_cons, app_nil_l. simpl. by rewrite Hc, H2.
  - intros [Hne Hall]. destruct s as [|c s]; [done |].
    simpl in Hall. apply andb_true_iff in Hall as [Hc Hs].
    exists (String c ""), s. split; [done |]. split.
    + by constructor.
    + by apply Lang_Star_Class.
Qed.

Lemma Lang_Lit c s : Lang (Lit c) s ↔ s = String c "".
Proof.
  unfold Lit. rewrite Lang_Class_inv. split.
  - by intros (c' & -> & ->%Ascii.eqb_eq).
  - intros ->. exists c. by rewrite Ascii.eqb_refl.
Qed.

(** The language of [emailRegex]. *)
Lemma emailRegex_spec (s : string) :
  matches ResponseValidators.emailRegex s = true ↔ email_pattern s.
Proof.
  rewrite matches_spec. unfold ResponseValidators.emailRegex, email_pattern, address_shape.
  split.
  - intros (l & s1 & -> & [Hl Hl']%Lang_Plus_Class & H)%Lang_Seq_inv.
    apply Lang_Seq_inv in H as (a & s2 & -> & ->%Lang_Lit & H).
    apply Lang_Seq_inv in H as (d & s3 & -> & [Hd Hd']%Lang_Plus_Class & H).
    apply Lang_Seq_inv in H as (b & t & -> & ->%Lang_Lit & [Ht Ht']%Lang_Plus_Class).
    exists l, d, t. done.
  - intros (l & d & t & -> & Hl & Hd & Ht & Hl' & Hd' & Ht').
    constructor; [by apply Lang_Plus_Class |].
    constructor; [by apply Lang_Lit |].
    constructor; [by apply Lang_Plus_Class |].
    constructor; [by apply Lang_Lit | by apply Lang_Plus_Class].
Qed.

End RegExpFacts.

(* ===================================================================== *)
(** ** Facts about objects, arrays and the [in] operator *)
(* ===================================================================== *)

Section ObjectFacts.

Import ResponseValidators.

Lemma not_an_object_spec (v : value) : not_an_object v = negb (is_object v).
Proof.
  destruct v as [| |b|n|s|props|elems]; unfold not_an_object; simpl; try done;
    apply orb_true_r.
Qed.

Lemma has_property_object (k : string) (v : value) :
  is_object v = true → JS.has_property k v = Return (has_key k v).
Proof. destruct v; try discriminate; done. Qed.

Lemma missing_object (requiredFields : list string) (v : value) :
  is_object v = true → missing requiredFields v = Return (missing_fields requiredFields v).
Proof.
  intros Hv. unfold missing, missing_fields.
  induction requiredFields as [|f fs IH]; [done |].
  simpl. rewrite has_property_object, IH by done. simpl.
  by destruct (has_key f v).
Qed.

Lemma pretty_N_go_suffix (x : N) (s : string) : ∃ pre, pretty_N_go x s = pre +:+ s.
Proof.
  revert s. induction (N.lt_wf_0 x) as [x _ IH]; intros s.
  destruct (decide (x = 0%N)) as [-> | Hx].
  - exists "". by rewrite pretty_N_go_0.
  - rewrite pretty_N_go_step by lia.
    destruct (IH (x `div` 10)%N) with (s := String (pretty_N_char (x `mod` 10)) s)
      as [pre Hpre]; [apply N.div_lt; lia |].
    exists (pre +:+ String (pretty_N_char (x `mod` 10)) ""). by rewrite Hpre, app_assoc.
Qed.

Lemma pretty_N_char_digit (x : N) : is_digit (pretty_N_char x) = true.
Proof. unfold pretty_N_char. by repeat case_match. Qed.

Lemma last_char_snoc (s : string) (c : ascii) : last_char (s +:+ String c "") = Some c.
Proof.
  induction s as [|a s IH]; [done |].
  rewrite app_cons. simpl. rewrite IH.
  destruct (s +:+ String c "") eqn:E; [| done].
  by apply app_eq_nil in E as [_ ?].
Qed.

(** The name of an array index ends with a digit. *)
Lemma index_key_last (i : nat) : ∃ d, last_char (JS.index_key i) = Some d ∧ is_digit d = true.
Proof.
  unfold JS.index_key, pretty, pretty_nat, pretty, pretty_N.
  case_decide as Hi; [by exists "0"%char |].
  rewrite pretty_N_go_step by lia.
  destruct (pretty_N_go_suffix (N.of_nat i `div` 10)
              (String (pretty_N_char (N.of_nat i `mod` 10)) "")) as [pre ->].
  eexists. split; [apply last_char_snoc | apply pretty_N_char_digit].
Qed.

Lemma lookup_own_zip (k : string) (ks : list string) (vs : list value) (v : value) :
  JS.lookup_own k (zip ks vs) = Some v → k ∈ ks.
Proof.
  revert vs. induction ks as [|k' ks IH]; intros [|v' vs]; simpl; try done.
  destruct (String.eqb_spec k k') as [-> | _]; [intros _; left | intros H; right; eauto].
Qed.

Lemma lookup_own_array (k : string) (elems : list value) :
  plain_name k = true → JS.lookup_own k (JS.array_own elems) = None.
Proof.
  intros Hk. destruct (JS.lookup_own _ _) as [v|] eqn:E; [exfalso | done].
  apply lookup_own_zip in E. unfold JS.index_keys in E.
  apply list_elem_of_fmap in E as (i & -> & _).
  destruct (index_key_last i) as (d & Hd & Hdig).
  unfold plain_name in Hk. rewrite Hd, Hdig in Hk. done.
Qed.

(** [in] on the required names looks at own properties only. *)
Lemma has_key_obj (k : string) (props : gmap string value) :
  plain_name k = true → has_key k (VObj props) = bool_decide (is_Some (props !! k)).
Proof.
  unfold plain_name. intros [_ Hk%bool_decide_eq_true]%andb_true_iff.
  unfold has_key, JS.has_property. rewrite Hk. apply orb_false_r.
Qed.

Lemma has_key_arr (k : string) (elems : list value) :
  plain_name k = true → has_key k (VArr elems) = false.
Proof.
  intros Hk. unfold has_key, JS.has_property. rewrite lookup_own_array by done.
  unfold plain_name in Hk.
  apply andb_true_iff in Hk as [[[_ Hlen]%andb_true_iff Harr]%andb_true_iff _].
  apply bool_decide_eq_true in Harr. rewrite Harr.
  apply negb_true_iff in Hlen. by rewrite Hlen.
Qed.

Lemma get_property_obj (k : string) (props : gmap string value) :
  plain_name k = true →
  JS.get_property (VObj props) k = Plain (default VUndefined (props !! k)).
Proof.
  unfold plain_name. intros [_ Hk%bool_decide_eq_true]%andb_true_iff.
  unfold JS.get_property. destruct (props !! k); [done | by rewrite Hk].
Qed.

Lemma missing_fields_arr (fields : list string) (elems : list value) :
  forallb plain_name fields = true → missing_fields fields (VArr elems) = fields.
Proof.
  unfold missing_fields. induction fields as [|f fs IH]; simpl; [done |].
  intros [Hf Hfs]%andb_true_iff. by rewrite has_key_arr, IH.
Qed.

Lemma missing_fields_nil (fields : list string) (v : value) :
  missing_fields fields v = [] ↔ Forall (λ k, has_key k v = true) fields.
Proof.
  unfold missing_fields. induction fields as [|f fs IH]; simpl.
  - split; [constructor | done].
  - destruct (has_key f v) eqn:E; simpl.
    + rewrite IH. split; [by constructor | by inversion 1].
    + split; [discriminate | inversion 1; congruence].
Qed.

Lemma missing_fields_elem (fields : list string) (v : value) (k : string) :
  k ∈ missing_fields fields v ↔ k ∈ fields ∧ has_key k v = false.
Proof.
  unfold missing_fields. rewrite list_elem_of_In, filter_In, <- list_elem_of_In.
  by rewrite negb_true_iff.
Qed.

End ObjectFacts.

(* ===================================================================== *)
(** ** The validators, check by check *)
(* ===================================================================== *)

Section ValidatorFacts.

Import ResponseValidators.

Lemma length_pos_nil {A : Type} (l : list A) : (0 <? length l)%nat = false ↔ l = [].
Proof. destruct l; simpl; [done | split; discriminate]. Qed.

Lemma validatePost_not_object (v : value) :
  is_object v = false → validatePost v = Throw (Error "Post must be an object").
Proof. intros Hv. unfold validatePost. by rewrite not_an_object_spec, Hv. Qed.

Lemma validateUser_not_object (v : value) :
  is_object v = false → validateUser v = Throw (Error "User must be an object").
Proof. intros Hv. unfold validateUser. by rewrite not_an_object_spec, Hv. Qed.

Lemma validateComment_not_object (v : value) :
  is_object v = false → validateComment v = Throw (Error "Comment must be an object").
Proof. intros Hv. unfold validateComment. by rewrite not_an_object_spec, Hv. Qed.

Lemma validatePost_missing (v : value) :
  is_object v = true → missing_fields post_fields v ≠ [] →
  validatePost v = Throw (Error ("Post missing required fields: "
                                 +:+ Str.join ", " (missing_fields post_fields v))).
Proof.
  intros Hv Hm. unfold validatePost. rewrite not_an_object_spec, Hv. simpl negb. cbv iota.
  rewrite missing_object by done. fold post_fields. simpl mbind.
  destruct (0 <? _)%nat eqn:E; [done |]. by apply length_pos_nil in E.
Qed.

Lemma validatePost_present (v : value) :
  is_object v = true → missing_fields post_fields v = [] →
  validatePost v =
    if not_number_or_le_zero (JS.get_property v "id") then
      Throw (Error "Post ID must be a positive number")
    else if not_number_or_le_zero (JS.get_property v "userId") then
      Throw (Error "User ID must be a positive number")
    else if not_string_or_blank (JS.get_property v "title") then
      Throw (Error "Post title must be a non-empty string")
    else if not_string_or_blank (JS.get_property v "body") then
      Throw (Error "Post body must be a non-empty string")
    else Return tt.
Proof.
  intros Hv Hm. unfold validatePost. rewrite not_an_object_spec, Hv. simpl negb. cbv iota.
  rewrite missing_object by done. fold post_fields. rewrite Hm. done.
Qed.

Lemma validateUser_missing (v : value) :
  is_object v = true → missing_fields user_fields v ≠ [] →
  validateUser v = Throw (Error ("User missing required fields: "
                                 +:+ Str.join ", " (missing_fields user_fields v))).
Proof.
  intros Hv Hm. unfold validateUser. rewrite not_an_object_spec, Hv. simpl negb. cbv iota.
  rewrite missing_object by done. fold user_fields. simpl mbind.
  destruct (0 <? _)%nat eqn:E; [done |]. by apply length_pos_nil in E.
Qed.

Lemma validateUser_present (v : value) :
  is_object v = true → missing_fields user_fields v = [] →
  validateUser v =
    match ToString_ref (JS.get_property v "email") with
    | Return s => if RegExp.matches emailRegex s then Return tt
                  else Throw (Error "User email must be valid format")
    | Throw e => Throw e
    end.
Proof.
  intros Hv Hm. unfold validateUser. rewrite not_an_object_spec, Hv. simpl negb. cbv iota.
  rewrite missing_object by done. fold user_fields. rewrite Hm.
  unfold RegExp.test, mbind, result_bind. simpl length. cbv iota beta.
  destruct (ToString_ref _) as [s|e]; [| done].
  by destruct (RegExp.matches emailRegex s).
Qed.

Lemma validateComment_missing (v : value) :
  is_object v = true → missing_fields comment_fields v ≠ [] →
  validateComment v = Throw (Error ("Comment missing required fields: "
                                    +:+ Str.join ", " (missing_fields comment_fields v))).
Proof.
  intros Hv Hm. unfold validateComment. rewrite not_an_object_spec, Hv. simpl negb. cbv iota.
  rewrite missing_object by done. fold comment_fields. simpl mbind.
  destruct (0 <? _)%nat eqn:E; [done |]. by apply length_pos_nil in E.
Qed.

Lemma validateComment_present (v : value) :
  is_object v = true → missing_fields comment_fields v = [] →
  validateComment v = Return tt.
Proof.
  intros Hv Hm. unfold validateComment. rewrite not_an_object_spec, Hv. simpl negb. cbv iota.
  rewrite missing_object by done. fold comment_fields. by rewrite Hm.
Qed.

Lemma not_string_or_blank_spec (x : jsref) :
  not_string_or_blank x = negb (non_blank_string x).
Proof.
  destruct x as [[| | | |s| |]|]; simpl; try done.
  rewrite negb_involutive. apply eq_true_iff_eq.
  by rewrite String.eqb_eq, trim_blank_iff.
Qed.

Lemma not_number_or_le_zero_false (x : jsref) :
  not_number_or_le_zero x = false ↔ positive_number x = true ∨ x = Plain (VNum NaN).
Proof.
  destruct x as [[| | |n| | |]|]; simpl; try (intuition congruence).
  rewrite le_zero_false. intuition congruence.
Qed.

(** All the ways [validatePost] returns. *)
Lemma validatePost_Return_iff (v : value) :
  validatePost v = Return tt ↔
    is_object v = true
    ∧ Forall (λ k, has_key k v = true) post_fields
    ∧ not_number_or_le_zero (JS.get_property v "id") = false
    ∧ not_number_or_le_zero (JS.get_property v "userId") = false
    ∧ non_blank_string (JS.get_property v "title") = true
    ∧ non_blank_string (JS.get_property v "body") = true.
Proof.
  rewrite <- missing_fields_nil.
  destruct (is_object v) eqn:Hv; [| rewrite validatePost_not_object by done; naive_solver].
  destruct (missing_fields post_fields v) as [|f m] eqn:Hm.
  - rewrite validatePost_present, !not_string_or_blank_spec by done.
    destruct (not_number_or_le_zero _); [naive_solver |].
    destruct (not_number_or_le_zero _); [naive_solver |].
    destruct (non_blank_string _); simpl; [| naive_solver].
    destruct (non_blank_string _); simpl; naive_solver.
  - rewrite validatePost_missing by (done || congruence). naive_solver.
Qed.

Lemma validateComment_Return_iff (v : value) :
  validateComment v = Return tt ↔
    is_object v = true ∧ Forall (λ k, has_key k v = true) comment_fields.
Proof.
  rewrite <- missing_fields_nil.
  destruct (is_object v) eqn:Hv; [| rewrite validateComment_not_object by done; naive_solver].
  destruct (missing_fields comment_fields v) as [|f m] eqn:Hm.
  - rewrite validateComment_present by done. naive_solver.
  - rewrite validateComment_missing by (done || congruence). naive_solver.
Qed.

Lemma validateUser_Return_iff (v : value) :
  validateUser v = Return tt ↔
    is_object v = true
    ∧ Forall (λ k, has_key k v = true) user_fields
    ∧ ∃ s, ToString_ref (JS.get_property v "email") = Return s ∧ email_pattern s.
Proof.
  rewrite <- missing_fields_nil.
  destruct (is_object v) eqn:Hv; [| rewrite validateUser_not_object by done; naive_solver].
  destruct (missing_fields user_fields v) as [|f m] eqn:Hm.
  - rewrite validateUser_present by done.
    destruct (ToString_ref _) as [s|e]; [| naive_solver].
    destruct (RegExp.matches emailRegex s) eqn:E.
    + apply emailRegex_spec in E. naive_solver.
    + split; [done |]. intros (_ & _ & s' & [= <-] & Hs%emailRegex_spec). congruence.
  - rewrite validateUser_missing by (done || congruence). naive_solver.
Qed.

Lemma present_or_missing (fields : list string) (v : value) :
  Forall (λ k, has_key k v = true) fields ∨ Exists (λ k, has_key k v = false) fields.
Proof.
  induction fields as [|f fs [IH | IH]].
  - left. constructor.
  - destruct (has_key f v) eqn:E; [left | right]; by constructor.
  - right. by apply Exists_cons_tl.
Qed.

Lemma unit_result (r : result unit) : r = Return tt ∨ fails r.
Proof. destruct r as [[]|e]; [by left | right; by exists e]. Qed.

Lemma missing_fields_ext (fields : list string) (props props' : gmap string value) :
  forallb plain_name fields = true →
  (∀ k, k ∈ fields → is_Some (props !! k) ↔ is_Some (props' !! k)) →
  missing_fields fields (VObj props) = missing_fields fields (VObj props').
Proof.
  intros Hplain Hkeys. unfold missing_fields. apply filter_ext_in_iff.
  intros k Hk. rewrite forallb_forall in Hplain.
  rewrite !has_key_obj by auto. apply list_elem_of_In, Hkeys in Hk.
  apply eq_true_iff_eq. rewrite !negb_true_iff, !bool_decide_eq_false. tauto.
Qed.

(** The outcome of [validateUser] on an object depends on which of the
    four required keys are there and on the value of [email]. *)
Lemma validateUser_agree (props props' : gmap string value) :
  (∀ k, k ∈ user_fields → is_Some (props !! k) ↔ is_Some (props' !! k)) →
  props !! "email" = props' !! "email" →
  validateUser (VObj props) = validateUser (VObj props').
Proof.
  intros Hkeys Hemail.
  pose proof (missing_fields_ext user_fields props props' eq_refl Hkeys) as Hm.
  destruct (missing_fields user_fields (VObj props)) as [|f m] eqn:E.
  - rewrite !validateUser_present by done.
    by rewrite !(get_property_obj "email"), Hemail by done.
  - rewrite !validateUser_missing by (done || congruence). by rewrite E, Hm.
Qed.

(** The outcome of [validateComment] on an object depends on which of
    the five required keys are there. *)
Lemma validateComment_agree (props props' : gmap string value) :
  (∀ k, k ∈ comment_fields → is_Some (props !! k) ↔ is_Some (props' !! k)) →
  validateComment (VObj props) = validateComment (VObj props').
Proof.
  intros Hkeys.
  pose proof (missing_fields_ext comment_fields props props' eq_refl Hkeys) as Hm.
  destruct (missing_fields comment_fields (VObj props)) as [|f m] eqn:E.
  - by rewrite !validateComment_present.
  - rewrite !validateComment_missing by (done || congruence). by rewrite E, Hm.
Qed.

Lemma is_Some_insert_same (props : gmap string value) (k f : string) (x x' : value) :
  is_Some (<[f := x]> props !! k) ↔ is_Some (<[f := x']> props !! k).
Proof.
  destruct (decide (f = k)) as [-> | Hne].
  - rewrite !lookup_insert_eq. split; eauto.
  - by rewrite !lookup_insert_ne.
Qed.

End ValidatorFacts.

(* ===================================================================== *)
(** ** The validators over a heap: a small program logic *)
(* ===================================================================== *)

Section HeapFacts.

Import Heap.

Lemma runs_ret {A : Type} (a : A) σ Q : Q (Return a) σ → runs (mret a) σ Q.
Proof. done. Qed.

Lemma runs_bind {A B : Type} (m : prog A) (k : A → prog B) σ Q :
  runs m σ (λ r σ', match r with
                    | Return a => runs (k a) σ' Q
                    | Throw e => Q (Throw e) σ'
                    end) →
  runs (m ≫= k) σ Q.
Proof.
  unfold runs, outcome, final, mbind, prog_bind.
  by destruct (m σ) as [[a|e] σ'].
Qed.

Lemma fresh_unused (σ : heap) : σ !! fresh (dom σ) = None.
Proof. apply not_elem_of_dom, is_fresh. Qed.

Lemma runs_alloc (c : cell) σ (Q : result loc → heap → Prop) :
  (∀ l, σ !! l = None → Q (Return l) (<[l := c]> σ)) → runs (alloc c) σ Q.
Proof. intros H. apply H, fresh_unused. Qed.

Lemma runs_throw {A : Type} (message : string) σ (Q : result A → heap → Prop) :
  (∀ l, σ !! l = None → Q (Throw (Error message)) (<[l := ErrorObject message]> σ)) →
  runs (throw_new_Error message) σ Q.
Proof. intros H. apply H, fresh_unused. Qed.

Lemma runs_inspect {A : Type} (f : value → result A) (a : arg) σ Q :
  Q (f (deref σ a)) σ → runs (inspect f a) σ Q.
Proof. done. Qed.

Lemma runs_read_regex (l : loc) (r : RegExp.regex) σ Q :
  σ !! l = Some (RegExpObject r) → Q (Return r) σ → runs (read_regex l) σ Q.
Proof. intros Hl HQ. unfold runs, outcome, final, read_regex. by rewrite Hl. Qed.

Lemma strings_of_strings (xs : list string) : strings_of (VArr (map VStr xs)) = xs.
Proof. unfold strings_of. induction xs as [|x xs IH]; [done | simpl; by f_equal]. Qed.

(** A heap that grows keeps the value of an argument that denotes an
    object. *)
Lemma deref_grow (σ σ' : heap) (a : arg) :
  σ ⊆ σ' → allocated σ a → deref σ' a = deref σ a.
Proof.
  intros Hsub Ha. destruct a as [v|l]; [done |]. simpl in *.
  destruct Ha as [c Hc].
  assert (σ' !! l = Some c) as Hc' by (eapply lookup_weaken; eauto).
  by rewrite Hc', Hc.
Qed.

Lemma object_allocated (σ : heap) (a : arg) :
  is_object (deref σ a) = true → allocated σ a.
Proof.
  destruct a as [v|l]; simpl; [done |].
  destruct (σ !! l) as [c|]; [eauto | discriminate].
Qed.

Lemma runs_new_array (xs : list string) σ (Q : result loc → heap → Prop) :
  (∀ l, σ !! l = None → Q (Return l) (<[l := Data (VArr (map VStr xs))]> σ)) →
  runs (new_array xs) σ Q.
Proof. apply runs_alloc. Qed.

Lemma runs_read_strings (l : loc) (xs : list string) σ Q :
  σ !! l = Some (Data (VArr (map VStr xs))) → Q (Return xs) σ →
  runs (read_strings l) σ Q.
Proof.
  intros Hl HQ. apply runs_inspect. simpl. rewrite Hl.
  by rewrite strings_of_strings.
Qed.

(** The first statements of every validator: the array of required
    fields, the array of those the argument lacks, and what follows. *)
Lemma runs_missing {A : Type} (fields : list string) (a : arg) (k : list string → prog A)
    σ σ0 v (Q : result A → heap → Prop) :
  σ0 ⊆ σ → allocated σ0 a → deref σ0 a = v → is_object v = true →
  (∀ σ', σ ⊆ σ' → runs (k (missing_fields fields v)) σ' Q) →
  runs (requiredFields ← new_array fields;
        missingFields ← filter_missing requiredFields a;
        names ← read_strings missingFields;
        k names) σ Q.
Proof.
  intros Hsub Ha Hv Hobj HQ.
  apply runs_bind, runs_new_array. intros l1 Hl1.
  assert (σ ⊆ <[l1 := Data (VArr (map VStr fields))]> σ) as H1 by by apply insert_subseteq.
  apply runs_bind. unfold filter_missing.
  apply runs_bind, runs_read_strings with (xs := fields); [by apply lookup_insert_eq |].
  apply runs_bind, runs_inspect.
  rewrite (deref_grow σ0) by (done || by etrans). rewrite Hv, missing_object by done.
  apply runs_new_array. intros l2 Hl2.
  apply runs_bind, runs_read_strings with (xs := missing_fields fields v);
    [by apply lookup_insert_eq |].
  apply HQ. etrans; [done |]. by apply insert_subseteq.
Qed.

Ltac throws := apply runs_throw; intros ? ?; split;
               [done | etrans; [eassumption | by apply insert_subseteq]].

Lemma validatePost_runs (post : arg) σ :
  runs (Heap.validatePost post) σ
    (λ r σ', r = ResponseValidators.validatePost (deref σ post) ∧ σ ⊆ σ').
Proof.
  unfold Heap.validatePost. apply runs_bind, runs_inspect.
  destruct (is_object (deref σ post)) eqn:Hobj; rewrite not_an_object_spec, Hobj; simpl negb.
  - assert (allocated σ post) as Ha by by apply object_allocated.
    apply runs_missing with (σ0 := σ) (v := deref σ post); try done.
    intros σ' Hsub. fold post_fields.
    destruct (missing_fields post_fields (deref σ post)) as [|f m] eqn:Hm.
    + rewrite validatePost_present by done. simpl length. cbv iota beta. simpl Nat.ltb. cbv iota.
      unfold get.
      apply runs_bind, runs_inspect. rewrite (deref_grow σ) by done.
      destruct (ResponseValidators.not_number_or_le_zero _); [throws |].
      apply runs_bind, runs_inspect. rewrite (deref_grow σ) by done.
      destruct (ResponseValidators.not_number_or_le_zero _); [throws |].
      apply runs_bind, runs_inspect. rewrite (deref_grow σ) by done.
      destruct (ResponseValidators.not_string_or_blank _); [throws |].
      apply runs_bind, runs_inspect. rewrite (deref_grow σ) by done.
      destruct (ResponseValidators.not_string_or_blank _); [throws |].
      by apply runs_ret.
    + rewrite validatePost_missing, Hm by (done || congruence). simpl length. throws.
  - rewrite validatePost_not_object by done.
    apply runs_throw. intros l Hl. split; [done | by apply insert_subseteq].
Qed.

Lemma validateUser_runs (user : arg) σ :
  runs (Heap.validateUser user) σ
    (λ r σ', r = ResponseValidators.validateUser (deref σ user) ∧ σ ⊆ σ').
Proof.
  unfold Heap.validateUser. apply runs_bind, runs_inspect.
  destruct (is_object (deref σ user)) eqn:Hobj; rewrite not_an_object_spec, Hobj; simpl negb.
  - assert (allocated σ user) as Ha by by apply object_allocated.
    apply runs_missing with (σ0 := σ) (v := deref σ user); try done.
    intros σ' Hsub. fold user_fields.
    destruct (missing_fields user_fields (deref σ user)) as [|f m] eqn:Hm.
    + rewrite validateUser_present by done. simpl length. simpl Nat.ltb. cbv iota.
      apply runs_bind, runs_alloc. intros l Hl.
      assert (σ ⊆ <[l := RegExpObject ResponseValidators.emailRegex]> σ') as Hsub'
        by (etrans; [done | by apply insert_subseteq]).
      apply runs_bind, runs_read_regex with (r := ResponseValidators.emailRegex);
        [by apply lookup_insert_eq |].
      apply runs_bind, runs_inspect. rewrite (deref_grow σ) by done.
      unfold RegExp.test.
      destruct (ToString_ref _) as [s|e]; simpl; [| done].
      destruct (RegExp.matches _ s); simpl; [by apply runs_ret | throws].
    + rewrite validateUser_missing, Hm by (done || congruence). simpl length. throws.
  - rewrite validateUser_not_object by done.
    apply runs_throw. intros l Hl. split; [done | by apply insert_subseteq].
Qed.

Lemma validateComment_runs (comment : arg) σ :
  runs (Heap.validateComment comment) σ
    (λ r σ', r = ResponseValidators.validateComment (deref σ comment) ∧ σ ⊆ σ').
Proof.
  unfold Heap.validateComment. apply runs_bind, runs_inspect.
  destruct (is_object (deref σ comment)) eqn:Hobj; rewrite not_an_object_spec, Hobj; simpl negb.
  - assert (allocated σ comment) as Ha by by apply object_allocated.
    apply runs_missing with (σ0 := σ) (v := deref σ comment); try done.
    intros σ' Hsub. fold comment_fields.
    destruct (missing_fields comment_fields (deref σ comment)) as [|f m] eqn:Hm.
    + rewrite validateComment_present by done. by apply runs_ret.
    + rewrite validateComment_missing, Hm by (done || congruence). simpl length. throws.
  - rewrite validateComment_not_object by done.
    apply runs_throw. intros l Hl. split; [done | by apply insert_subseteq].
Qed.

End HeapFacts.

(* ===================================================================== *)
(** ** The factories as merges *)
(* ===================================================================== *)

Section FactoryFacts.

Import TestDataFactory.

Lemma spread_default (o : value) : JS.spread (default_param o (VObj ∅)) = JS.spread o.
Proof. by destruct o. Qed.

Lemma lookup_merge (over base : gmap string value) (k : string) :
  (over ∪ base) !! k = match over !! k with
                       | Some v => Some v
                       | None => base !! k
                       end.
Proof.
  destruct (over !! k) as [v|] eqn:E.
  - by apply lookup_union_Some_l.
  - by apply lookup_union_r.
Qed.

Lemma createPost_merge (o : value) : createPost o = VObj (JS.spread o ∪ post_defaults).
Proof.
  unfold createPost, object_literal. cbn [foldl define]. rewrite spread_default.
  reflexivity.
Qed.

Lemma createComment_merge (w : World) (o : value) :
  createComment w o = VObj (JS.spread o ∪ comment_defaults (generateId w)).
Proof.
  unfold createComment, comment_defaults, object_literal. cbn [foldl define].
  rewrite spread_default.
  generalize (VStr ("commenter" +:+ interpolate (generateId w) +:+ "@example.com")).
  intros e. do 2 f_equal; try by vm_compute.
Qed.

Lemma createUser_merge (w : World) (o : value) :
  createUser w o = VObj (JS.spread o ∪ user_defaults (generateId w)).
Proof.
  unfold createUser, user_defaults, object_literal. cbn [foldl define].
  rewrite spread_default.
  generalize (VStr ("testuser" +:+ interpolate (generateId w))).
  generalize (VStr ("test" +:+ interpolate (generateId w) +:+ "@example.com")).
  intros e u. do 2 f_equal; try by vm_compute.
Qed.

End FactoryFacts.

(* ===================================================================== *)
(** ** The claims *)
(* ===================================================================== *)

Import TestDataFactory ResponseValidators.

(** *** validatePost *)

(** The parts of the contract of [validatePost] that hold: a value that is
    not an object is refused, and so is an object whose [id] or [userId] is
    not a number or is [<= 0], or whose [title] or [body] is not a string
    or is blank; an object with positive numbers and non-blank strings in
    the four fields is accepted. *)
Lemma validatePost_contract (post : value) :
  (is_object post = false → fails_with (validatePost post) "Post must be an object")
  ∧ (validatePost post = Return tt →
       non_blank_string (JS.get_property post "title") = true
       ∧ non_blank_string (JS.get_property post "body") = true
       ∧ (positive_number (JS.get_property post "id") = true
          ∨ JS.get_property post "id" = Plain (VNum NaN))
       ∧ (positive_number (JS.get_property post "userId") = true
          ∨ JS.get_property post "userId" = Plain (VNum NaN)))
  ∧ (is_object post = true →
     Forall (λ k, has_key k post = true) post_fields →
     positive_number (JS.get_property post "id") = true →
     positive_number (JS.get_property post "userId") = true →
     non_blank_string (JS.get_property post "title") = true →
     non_blank_string (JS.get_property post "body") = true →
     validatePost post = Return tt).
Proof.
  split; [apply validatePost_not_object |]. split.
  - intros (_ & _ & Hid & Huid & Ht & Hb)%validatePost_Return_iff.
    by apply not_number_or_le_zero_false in Hid, Huid.
  - intros Hobj Hkeys Hid Huid Ht Hb. apply validatePost_Return_iff.
    repeat split; try done; apply not_number_or_le_zero_false; by left.
Qed.

Example validatePost_negative_id :
  validatePost (VObj (<["id" := num (-1)]> sample_post))
  = Throw (Error "Post ID must be a positive number").
Proof. by vm_compute. Qed.

Example validatePost_blank_title :
  validatePost (VObj (<["title" := VStr "   "]> sample_post))
  = Throw (Error "Post title must be a non-empty string").
Proof. by vm_compute. Qed.

(** C1, at the input where the code leaves the claim: [NaN] has type
    number and is not a positive number, the comparison [NaN <= 0] is
    false, and [validatePost] returns on a post whose [id] is [NaN]. *)
Theorem validatePost_accepts_NaN_id :
  JS.typeof (VNum NaN) = "number"
  ∧ positive_number (Plain (VNum NaN)) = false
  ∧ validatePost (VObj (<["id" := VNum NaN]> sample_post)) = Return tt.
Proof. by vm_compute. Qed.

(** *** The factories *)

(** C2: override precedence.  For every overrides object, given by its
    own properties [props], and every key [k], the object each factory
    returns holds at [k] the value the overrides hold there, whole, when
    they have the key, and the factory's default otherwise: [userId = 1],
    the title and the body for [createPost], and the respective defaults
    for [createUser] and [createComment]. *)
Theorem override_precedence (w : World) (props : gmap string value) (k : string) :
  own (createPost (VObj props)) k
    = match props !! k with
      | Some v => Some v
      | None => post_defaults !! k
      end
  ∧ own (createUser w (VObj props)) k
    = match props !! k with
      | Some v => Some v
      | None => user_defaults (generateId w) !! k
      end
  ∧ own (createComment w (VObj props)) k
    = match props !! k with
      | Some v => Some v
      | None => comment_defaults (generateId w) !! k
      end.
Proof.
  rewrite createPost_merge, createUser_merge, createComment_merge.
  unfold own. cbn [JS.spread]. by rewrite !lookup_merge.
Qed.

(** A title in the overrides replaces the default title and leaves the
    default [userId] and body; an address with a city only replaces the
    whole default address; a [postId] replaces the default [postId]. *)
Lemma override_precedence_witness :
  createPost (VObj {[ "title" := VStr "T" ]})
  = VObj {[ "userId" := num 1; "title" := VStr "T";
            "body" := VStr "This is a test post body with meaningful content." ]}
  ∧ own (createPost (VObj {[ "title" := VStr "T" ]})) "title" = Some (VStr "T")
  ∧ own (createPost (VObj {[ "title" := VStr "T" ]})) "userId" = Some (num 1)
  ∧ own (createUser noon (VObj {[ "address" := VObj {[ "city" := VStr "X" ]} ]})) "address"
    = Some (VObj {[ "city" := VStr "X" ]})
  ∧ own (createComment noon (VObj {[ "postId" := num 7 ]})) "postId" = Some (num 7).
Proof.
  split; [by vm_compute |].
  split; [exact (proj1 (override_precedence noon {[ "title" := VStr "T" ]} "title")) |].
  split; [exact (proj1 (override_precedence noon {[ "title" := VStr "T" ]} "userId")) |].
  split.
  - exact (proj1 (proj2 (override_precedence noon
                           {[ "address" := VObj {[ "city" := VStr "X" ]} ]} "address"))).
  - exact (proj2 (proj2 (override_precedence noon {[ "postId" := num 7 ]} "postId"))).
Defined.

(** A nested object in the overrides replaces the default one whole: the
    other members of the default address are gone. *)
Example createUser_nested_override (w : World) :
  own (createUser w (VObj {[ "address" := VObj {[ "city" := VStr "X" ]} ]})) "address"
  = Some (VObj {[ "city" := VStr "X" ]}).
Proof. rewrite createUser_merge. unfold own. by rewrite lookup_merge. Qed.

Example createPost_defaults :
  createPost no_argument
  = VObj {[ "userId" := num 1;
            "title" := VStr "Test Post Title";
            "body" := VStr "This is a test post body with meaningful content." ]}.
Proof. by vm_compute. Qed.

(** *** validateUser *)

(** C3, where the claim fails: ["a@b.c@d"] has the shape the
    specification words (its tail may hold any non-space character), and
    [validateUser] refuses it. *)
Lemma validateUser_refuses_specified_pattern :
  specified_email_pattern "a@b.c@d"
  ∧ validateUser (VObj (sample_user (VStr "a@b.c@d")))
    = Throw (Error "User email must be valid format").
Proof.
  split; [| by vm_compute].
  exists "a", "b", "c@d". by vm_compute.
Qed.

(** C3 as amended.  [validateUser] fails on a value that is not an
    object and on an object that lacks one of [id], [name], [username],
    [email]; otherwise it returns exactly when the text of [email] (the
    string itself, or what ToString makes of another value) has the shape
    "one or more non-space-non-@ characters, @, one or more
    non-space-non-@ characters, a dot, one or more non-space-non-@
    characters", and fails when it has not.  Nothing else is looked at:
    two objects that have the same four keys among the required ones and
    the same [email] get the same outcome. *)
Theorem validateUser_contract (user : value) :
  (is_object user = false → fails_with (validateUser user) "User must be an object")
  ∧ (∀ k, k ∈ user_fields → has_key k user = false → fails (validateUser user))
  ∧ (validateUser user = Return tt ↔
       is_object user = true
       ∧ Forall (λ k, has_key k user = true) user_fields
       ∧ ∃ s, ToString_ref (JS.get_property user "email") = Return s ∧ email_pattern s)
  ∧ (∀ s, JS.get_property user "email" = Plain (VStr s) →
       validateUser user = Return tt ↔
         is_object user = true ∧ Forall (λ k, has_key k user = true) user_fields
         ∧ email_pattern s)
  ∧ (validateUser user = Return tt ∨ fails (validateUser user))
  ∧ (∀ props props' : gmap string value,
       user = VObj props →
       (∀ k, k ∈ user_fields → is_Some (props !! k) ↔ is_Some (props' !! k)) →
       props !! "email" = props' !! "email" →
       validateUser (VObj props') = validateUser user).
Proof.
  split; [apply validateUser_not_object |].
  split.
  { intros k Hk Hmiss. destruct (unit_result (validateUser user)) as [H | H]; [| done].
    apply validateUser_Return_iff in H as (_ & H & _).
    rewrite Forall_forall in H. apply H in Hk. congruence. }
  split; [apply validateUser_Return_iff |].
  split.
  { intros s Hs. rewrite validateUser_Return_iff, Hs. simpl. naive_solver. }
  split; [apply unit_result |].
  intros props props' -> Hkeys Hemail. symmetry. by apply validateUser_agree.
Qed.

(** The contract at a string, which is no object, and at the sample user
    with the address ["a@b.co"]. *)
Lemma validateUser_contract_witness :
  is_object (VStr "user") = false
  ∧ fails_with (validateUser (VStr "user")) "User must be an object"
  ∧ JS.get_property (VObj (sample_user (VStr "a@b.co"))) "email" = Plain (VStr "a@b.co")
  ∧ validateUser (VObj (sample_user (VStr "a@b.co"))) = Return tt.
Proof.
  split; [reflexivity |].
  split; [exact (proj1 (validateUser_contract (VStr "user")) eq_refl) |].
  split; [reflexivity |].
  destruct (validateUser_contract (VObj (sample_user (VStr "a@b.co"))))
    as (_ & _ & _ & H & _).
  apply (H "a@b.co" eq_refl).
  split; [reflexivity |]. split; [repeat constructor |].
  exists "a", "b", "co". repeat split; (reflexivity || discriminate).
Defined.

Example validateUser_not_an_email :
  validateUser (VObj (sample_user (VStr "not-an-email")))
  = Throw (Error "User email must be valid format").
Proof. by vm_compute. Qed.

Example validateUser_a_b_co : validateUser (VObj (sample_user (VStr "a@b.co"))) = Return tt.
Proof. by vm_compute. Qed.

(** The text of a value that is not a string is matched as well. *)
Example validateUser_array_email :
  validateUser (VObj (sample_user (VArr [VStr "a@b.co"]))) = Return tt.
Proof. by vm_compute. Qed.

(** *** Identifier fields *)

(** C4, where the claim fails: [validateUser] returns on a user whose
    [id] is [-1], and [validateComment] on a comment whose [postId] is a
    string. *)
Lemma validateUser_accepts_negative_id :
  positive_number (Plain (num (-1))) = false
  ∧ validateUser (VObj (<["id" := num (-1)]> (sample_user (VStr "a@b.co")))) = Return tt
  ∧ validateComment (VObj (<["postId" := VStr "zero"]> sample_comment)) = Return tt.
Proof. by vm_compute. Qed.

(** C4 as amended.  Only [validatePost] looks at the value of an
    identifier: with the four fields there, it fails when [id] is not a
    number or is [<= 0], and, [id] passing, when [userId] is not a number
    or is [<= 0].  [validateUser] and [validateComment] ask that [id]
    (and [postId]) be there and nothing of its value: the outcome is the
    same whatever the field holds. *)
Theorem identifier_checks (post : value) (props : gmap string value) (x x' : value) :
  (is_object post = true → Forall (λ k, has_key k post = true) post_fields →
     (not_number_or_le_zero (JS.get_property post "id") = true →
        fails_with (validatePost post) "Post ID must be a positive number")
     ∧ (not_number_or_le_zero (JS.get_property post "id") = false →
        not_number_or_le_zero (JS.get_property post "userId") = true →
        fails_with (validatePost post) "User ID must be a positive number"))
  ∧ validateUser (VObj (<["id" := x]> props)) = validateUser (VObj (<["id" := x']> props))
  ∧ validateComment (VObj (<["id" := x]> props))
    = validateComment (VObj (<["id" := x']> props))
  ∧ validateComment (VObj (<["postId" := x]> props))
    = validateComment (VObj (<["postId" := x']> props)).
Proof.
  split.
  { intros Hobj Hkeys%missing_fields_nil. rewrite validatePost_present by done.
    split; [by intros -> | by intros -> ->]. }
  split; [| split].
  - apply validateUser_agree; [intros; apply is_Some_insert_same |].
    by rewrite !lookup_insert_ne.
  - apply validateComment_agree. intros. apply is_Some_insert_same.
  - apply validateComment_agree. intros. apply is_Some_insert_same.
Qed.

(** The check of [id] at the sample post with [id = -1]. *)
Lemma identifier_checks_witness :
  is_object (VObj (<["id" := num (-1)]> sample_post)) = true
  ∧ Forall (λ k, has_key k (VObj (<["id" := num (-1)]> sample_post)) = true) post_fields
  ∧ not_number_or_le_zero (JS.get_property (VObj (<["id" := num (-1)]> sample_post)) "id")
    = true
  ∧ fails_with (validatePost (VObj (<["id" := num (-1)]> sample_post)))
      "Post ID must be a positive number".
Proof.
  assert (Forall (λ k, has_key k (VObj (<["id" := num (-1)]> sample_post)) = true)
            post_fields) as Hkeys by (repeat constructor).
  split; [reflexivity |]. split; [exact Hkeys |]. split; [reflexivity |].
  destruct (identifier_checks (VObj (<["id" := num (-1)]> sample_post)) ∅
              VNull VNull) as [H _].
  destruct (H eq_refl Hkeys) as [Hid _]. exact (Hid eq_refl).
Defined.

(** *** validateComment *)

(** C5.  [validateComment] returns exactly on the objects that have the
    five keys [id], [postId], [name], [email], [body], and fails exactly
    on the values that are not objects or lack one of them; on an object
    the five keys are looked up among its own properties, whatever they
    hold, as on the sample comment whose [email] is ["x"]. *)
Theorem validateComment_presence_only (comment : value) :
  (validateComment comment = Return tt ↔
     is_object comment = true ∧ Forall (λ k, has_key k comment = true) comment_fields)
  ∧ (fails (validateComment comment) ↔
     is_object comment = false ∨ Exists (λ k, has_key k comment = false) comment_fields)
  ∧ (∀ props k, comment = VObj props → k ∈ comment_fields →
       has_key k comment = bool_decide (is_Some (props !! k)))
  ∧ validateComment (VObj sample_comment) = Return tt.
Proof.
  split; [apply validateComment_Return_iff |].
  split; [| split; [| by vm_compute]].
  - pose proof (validateComment_Return_iff comment) as Hiff.
    destruct (unit_result (validateComment comment)) as [H | H].
    + split; [rewrite H; by intros [e ?] |].
      apply Hiff in H as [Hobj Hkeys]. intros [? | Hex]; [congruence |].
      apply Exists_exists in Hex as (k & Hk & Hmiss).
      rewrite Forall_forall in Hkeys. apply Hkeys in Hk. congruence.
    + split; [intros _ | done].
      destruct (is_object comment) eqn:Hobj; [right | by left].
      destruct (present_or_missing comment_fields comment) as [Hkeys | Hex]; [| done].
      destruct H as [e He]. rewrite (proj2 Hiff) in He by done. done.
  - intros props k -> Hk. apply has_key_obj.
    repeat (apply elem_of_cons in Hk as [-> | Hk]; [done |]). by apply elem_of_nil in Hk.
Qed.

(** The lookup of [email] at the sample comment. *)
Lemma validateComment_presence_only_witness :
  "email" ∈ comment_fields
  ∧ has_key "email" (VObj sample_comment)
    = bool_decide (is_Some (sample_comment !! "email"))
  ∧ validateComment (VObj sample_comment) = Return tt.
Proof.
  assert ("email" ∈ comment_fields) as Hk by (unfold comment_fields; set_solver).
  destruct (validateComment_presence_only (VObj sample_comment)) as (_ & _ & H & Hok).
  split; [exact Hk |]. split; [exact (H sample_comment "email" eq_refl Hk) | exact Hok].
Defined.

(** *** createInvalidData *)

Lemma invalidPatterns_lookup (k : string) :
  k ∉ kinds →
  JS.get_property invalidPatterns k
  = match assoc k Object_prototype with
    | Some path => Builtin path
    | None => Plain VUndefined
    end.
Proof.
  intros Hk. unfold invalidPatterns, object_literal at 1. cbn [foldl define].
  unfold JS.get_property.
  assert (∀ k', k' ∈ kinds → k' ≠ k) as Hne by (intros k' Hk' ->; done).
  rewrite !lookup_insert_ne, lookup_empty; [done | ..];
    apply Hne; unfold kinds; set_solver.
Qed.

(** The kinds [createInvalidData] knows, with their payloads. *)
Lemma createInvalidData_known :
  createInvalidData (VStr "emptyPost") = Return (Plain (VObj ∅))
  ∧ createInvalidData (VStr "missingRequiredFields")
    = Return (Plain (VObj {[ "title" := VStr "Only Title" ]}))
  ∧ createInvalidData (VStr "invalidTypes")
    = Return (Plain (VObj {[ "userId" := VStr "not-a-number"; "title" := num 123 ]}))
  ∧ createInvalidData (VStr "oversizedData")
    = Return (Plain (VObj {[ "title" := VStr (Str.repeat "x" (N.to_nat 1000));
                             "body" := VStr (Str.repeat "y" (N.to_nat 10000)) ]}))
  ∧ createInvalidData (VStr "sqlInjection")
    = Return (Plain (VObj {[ "title" := VStr "'; DROP TABLE posts; --";
                             "body" := VStr "1 OR 1=1" ]}))
  ∧ createInvalidData (VStr "xssAttempt")
    = Return (Plain (VObj {[ "title" := VStr ("<script>alert(" +:+ Str.dquote +:+ "xss"
                                              +:+ Str.dquote +:+ ")</script>");
                             "body" := VStr "<img src=x onerror=alert(1)>" ]})).
Proof. repeat split; by vm_compute. Qed.

(** A kind that is neither known nor the name of a member inherited from
    [Object.prototype] yields the empty object. *)
Lemma createInvalidData_unknown (type : value) (k : string) :
  JS.ToString type = Return k → k ∉ kinds → assoc k Object_prototype = None →
  createInvalidData type = Return (Plain (VObj ∅)).
Proof.
  intros Hkey Hk Hproto. unfold createInvalidData. rewrite Hkey.
  unfold mbind, result_bind. by rewrite invalidPatterns_lookup, Hproto.
Qed.

Example createInvalidData_unknownKind :
  createInvalidData (VStr "unknownKind") = Return (Plain (VObj ∅)).
Proof. by vm_compute. Qed.

(** C6, at the input where the code leaves the claim: ["constructor"] is
    not one of the six kinds, and [createInvalidData] returns the
    function [Object], which the lookup [invalidPatterns[type]] finds on
    [Object.prototype], instead of an empty object. *)
Theorem createInvalidData_inherited_name :
  bool_decide ("constructor" ∈ kinds) = false
  ∧ createInvalidData (VStr "constructor") = Return (Builtin "Object")
  ∧ JS.typeof_ref (Builtin "Object") = "function".
Proof. by vm_compute. Qed.

(** *** Failure semantics of validatePost *)

(** C7.  On an object that lacks some of [id], [userId], [title], [body],
    [validatePost] fails once, with a message that joins all the missing
    names, so that each of them occurs in it.  With the four fields
    there, it signals the first violation only, in the order [id],
    [userId], [title], [body]: an [id] that is not a positive number
    ([NaN] apart, which the check lets through) gives the error of the
    post ID whatever the other three fields hold; with a positive [id],
    such a [userId] gives the error of the user ID whatever [title] and
    [body] hold; with both positive, a [title] that is no non-blank
    string gives the error of the title whatever [body] holds; then
    comes [body]; and with nothing to refuse the call returns.  The
    sample post passes, and without any one of its four fields it fails
    with a message that names the field. *)
Theorem validatePost_failure_semantics (post : value) :
  is_object post = true →
  (missing_fields post_fields post ≠ [] →
     validatePost post
     = Throw (Error ("Post missing required fields: "
                     +:+ Str.join ", " (missing_fields post_fields post)))
     ∧ ∀ f, f ∈ post_fields → has_key f post = false →
         Str.occurs_in f ("Post missing required fields: "
                          +:+ Str.join ", " (missing_fields post_fields post)))
  ∧ (missing_fields post_fields post = [] →
     (positive_number (JS.get_property post "id") = false →
      JS.get_property post "id" ≠ Plain (VNum NaN) →
      fails_with (validatePost post) "Post ID must be a positive number")
     ∧ (positive_number (JS.get_property post "id") = true →
        positive_number (JS.get_property post "userId") = false →
        JS.get_property post "userId" ≠ Plain (VNum NaN) →
        fails_with (validatePost post) "User ID must be a positive number")
     ∧ (positive_number (JS.get_property post "id") = true →
        positive_number (JS.get_property post "userId") = true →
        non_blank_string (JS.get_property post "title") = false →
        fails_with (validatePost post) "Post title must be a non-empty string")
     ∧ (positive_number (JS.get_property post "id") = true →
        positive_number (JS.get_property post "userId") = true →
        non_blank_string (JS.get_property post "title") = true →
        non_blank_string (JS.get_property post "body") = false →
        fails_with (validatePost post) "Post body must be a non-empty string")
     ∧ (positive_number (JS.get_property post "id") = true →
        positive_number (JS.get_property post "userId") = true →
        non_blank_string (JS.get_property post "title") = true →
        non_blank_string (JS.get_property post "body") = true →
        validatePost post = Return tt))
  ∧ validatePost (VObj sample_post) = Return tt
  ∧ (∀ f, f ∈ post_fields →
       validatePost (VObj (delete f sample_post))
       = Throw (Error ("Post missing required fields: " +:+ f))).
Proof.
  intros Hobj. split; [| split; [| split]].
  - intros Hm. split; [by apply validatePost_missing |].
    intros f Hf Hmiss. apply occurs_in_app_r, join_occurs, missing_fields_elem. done.
  - intros Hm. unfold fails_with.
    rewrite validatePost_present by done.
    assert (∀ x, positive_number x = false → x ≠ Plain (VNum NaN) →
                 not_number_or_le_zero x = true) as Hrefuse.
    { intros [[| | |n| | |]|]; simpl; try done.
      intros Hx Hnan. destruct (Num.le_zero n) eqn:E; [done |].
      apply le_zero_false in E as [E | ->]; congruence. }
    assert (∀ x, positive_number x = true → not_number_or_le_zero x = false) as Hpass.
    { intros [[| | |n| | |]|]; simpl; try done.
      intros Hx. apply le_zero_false. by left. }
    assert (∀ x, non_blank_string x = false → not_string_or_blank x = true) as Hblank.
    { intros [[| | | |t| |]|]; simpl; try done.
      intros Ht%negb_false_iff. by apply String.eqb_eq, trim_blank_iff. }
    assert (∀ x, non_blank_string x = true → not_string_or_blank x = false) as Hfull.
    { intros [[| | | |t| |]|]; simpl; try done.
      intros Ht%negb_true_iff. apply String.eqb_neq.
      intros Hb%trim_blank_iff. congruence. }
    split; [intros Hid Hnan; by rewrite Hrefuse |].
    split; [intros Hid Huid Hnan; by rewrite (Hpass _ Hid), Hrefuse |].
    split; [intros Hid Huid Ht; by rewrite (Hpass _ Hid), (Hpass _ Huid), Hblank |].
    split.
    + intros Hid Huid Ht Hb.
      by rewrite (Hpass _ Hid), (Hpass _ Huid), (Hfull _ Ht), Hblank.
    + intros Hid Huid Ht Hb.
      by rewrite (Hpass _ Hid), (Hpass _ Huid), (Hfull _ Ht), (Hfull _ Hb).
  - by vm_compute.
  - intros f Hf.
    repeat (apply elem_of_cons in Hf as [-> | Hf]; [by vm_compute |]).
    by apply elem_of_nil in Hf.
Qed.

(** The sample post without [id] and [title]: one failure, both names.
    A post whose [id], [userId] and [title] are all to refuse: the error
    of the post ID alone.  A post with fine identifiers, a [null] title
    and an empty body: the error of the title alone.  The sample post
    with [userId] zero, and with a blank body, run. *)
Lemma validatePost_failure_semantics_witness :
  is_object (VObj (delete "title" (delete "id" sample_post))) = true
  ∧ validatePost (VObj (delete "title" (delete "id" sample_post)))
    = Throw (Error "Post missing required fields: id, title")
  ∧ is_object post_with_three_violations = true
  ∧ missing_fields post_fields post_with_three_violations = []
  ∧ validatePost post_with_three_violations
    = Throw (Error "Post ID must be a positive number")
  ∧ validatePost post_with_late_violations
    = Throw (Error "Post title must be a non-empty string")
  ∧ validatePost (VObj (<["userId" := num 0]> sample_post))
    = Throw (Error "User ID must be a positive number")
  ∧ validatePost (VObj (<["body" := VStr " "]> sample_post))
    = Throw (Error "Post body must be a non-empty string").
Proof.
  split; [reflexivity |]. split.
  { destruct (validatePost_failure_semantics
                (VObj (delete "title" (delete "id" sample_post))) eq_refl) as [H _].
    destruct H as [H _]; [by vm_compute |].
    rewrite H. by vm_compute. }
  split; [reflexivity |]. split; [by vm_compute |]. split.
  { destruct (validatePost_failure_semantics post_with_three_violations eq_refl)
      as (_ & H & _).
    destruct (H ltac:(by vm_compute)) as (Hid & _).
    apply Hid; [reflexivity | discriminate]. }
  split.
  { destruct (validatePost_failure_semantics post_with_late_violations eq_refl)
      as (_ & H & _).
    destruct (H ltac:(by vm_compute)) as (_ & _ & Htitle & _).
    apply Htitle; reflexivity. }
  split; by vm_compute.
Defined.

(** *** generateId and the defaults of createUser *)

Lemma round53_le (p e : Z) :
  2 ^ 53 ≤ p < 2 ^ 63 →
  ∃ q extra, Float.round53 p e = (q, e + extra) ∧ 1 ≤ extra ≤ 10
             ∧ 0 ≤ q ∧ q * 2 ^ extra ≤ p + 2 ^ (extra - 1).
Proof.
  intros [Hlo Hhi]. unfold Float.round53.
  assert (0 < p) as Hp by lia.
  assert (53 ≤ Z.log2 p) as Hlog by (apply Z.log2_le_pow2; lia).
  assert (Z.log2 p < 63) as Hlog' by (apply Z.log2_lt_pow2; lia).
  set (extra := Z.log2 p + 1 - 53).
  assert (1 ≤ extra ≤ 10) as Hextra by lia.
  destruct (extra <=? 0) eqn:E; [apply Z.leb_le in E; lia |].
  eexists _, extra. split; [reflexivity |]. split; [done |].
  assert (0 < 2 ^ extra) as Hpow by (apply Z.pow_pos_nonneg; lia).
  assert (2 ^ extra = 2 * 2 ^ (extra - 1)) as Hhalf.
  { replace extra with (Z.succ (extra - 1)) at 1 by lia. apply Z.pow_succ_r. lia. }
  pose proof (Z.div_mod p (2 ^ extra) ltac:(lia)) as Hdm.
  pose proof (Z.mod_pos_bound p (2 ^ extra) Hpow) as Hmod.
  pose proof (Z.div_pos p (2 ^ extra) ltac:(lia) Hpow) as Hq.
  destruct (_ || _) eqn:Hup.
  - split; [lia |].
    apply orb_true_iff in Hup as [Hup%Z.ltb_lt | [Hup%Z.eqb_eq _]%andb_true_iff]; nia.
  - split; [lia |]. nia.
Qed.

(** The rounded product of a number below 1 and 1000 is below 1000. *)
Lemma offset_range (w : World) : World_ok w → 0 ≤ offset w < 1000.
Proof.
  intros (_ & [Hm0 Hm] & He & Hlt). unfold offset, Float.times1000.
  set (x := Math_random w) in *.
  assert (0 < 2 ^ (- expo x)) as HA by (apply Z.pow_pos_nonneg; lia).
  destruct (decide (mant x * 1000 < 2 ^ 53)) as [Hsmall | Hbig].
  - unfold Float.round53.
    assert (Z.log2 (mant x * 1000) + 1 - 53 ≤ 0) as Hextra.
    { destruct (decide (mant x = 0)) as [-> | Hne]; [done |].
      assert (Z.log2 (mant x * 1000) < 53) by (apply Z.log2_lt_pow2; lia). lia. }
    rewrite (proj2 (Z.leb_le _ _) Hextra). unfold Float.floor.
    rewrite (proj2 (Z.leb_gt _ _)) by lia. split.
    + apply Z.div_pos; lia.
    + apply Z.div_lt_upper_bound; lia.
  - destruct (round53_le (mant x * 1000) (expo x)) as (q & extra & -> & Hextra & Hq & Hle);
      [change (2 ^ 63) with (1024 * 2 ^ 53); lia |].
    assert (2 ^ (extra - 1) ≤ 2 ^ 9) as Hhalf by (apply Z.pow_le_mono_r; lia).
    change (2 ^ 9) with 512 in Hhalf.
    assert (43 < - expo x) as Hexp.
    { apply (Z.pow_lt_mono_r_iff 2); [lia | lia |]. change (2 ^ 43) with 8796093022208.
      change (2 ^ 53) with 9007199254740992 in Hbig. lia. }
    unfold Float.floor. rewrite (proj2 (Z.leb_gt _ _)) by lia.
    assert (2 ^ (- expo x) = 2 ^ extra * 2 ^ (- (expo x + extra))) as Hsplit.
    { rewrite <- Z.pow_add_r by lia. f_equal. lia. }
    assert (0 < 2 ^ (- (expo x + extra))) as HC by (apply Z.pow_pos_nonneg; lia).
    assert (0 < 2 ^ extra) as HB by (apply Z.pow_pos_nonneg; lia).
    split.
    + apply Z.div_pos; lia.
    + apply Z.div_lt_upper_bound; [done |]. nia.
Qed.

(** The rounding shows: the product of the number nearest to 0.009 and
    1000 rounds up to 9, where the exact product stays below 9. *)
Example offset_rounds :
  Float.floor (Float.times1000 nine_thousandths) = 9
  ∧ mant nine_thousandths * 1000 / 2 ^ (- expo nine_thousandths) = 8.
Proof. by vm_compute. Qed.

Example offset_largest :
  Float.times1000 {| mant := 2 ^ 53 - 1; expo := -53 |} = (8796093022207999, -43)
  ∧ Float.floor (8796093022207999, -43) = 999.
Proof. by vm_compute. Qed.

Lemma generateId_range (w : World) : World_ok w → Z.abs (generateId w) < 10 ^ 21.
Proof.
  intros Hw. pose proof (offset_range w Hw) as Hoff. destruct Hw as (Hnow & _).
  unfold generateId. lia.
Qed.

(** The text of a generated identifier is its decimal numeral. *)
Lemma interpolate_decimal (w : World) :
  World_ok w → interpolate (generateId w) = pretty (generateId w).
Proof. intros Hw. by apply toString_of_Z, generateId_range. Qed.

Lemma username_inj (i j : Z) : "testuser" +:+ pretty i = "testuser" +:+ pretty j → i = j.
Proof. intros H. by apply (inj pretty), (inj (String.app "testuser")). Qed.

Lemma email_inj (i j : Z) :
  "test" +:+ pretty i +:+ "@example.com" = "test" +:+ pretty j +:+ "@example.com" → i = j.
Proof.
  intros H. apply (inj (String.app "test")) in H.
  by apply app_inv_tail, (inj pretty) in H.
Qed.

(** C8, where the claim fails: the second reading is taken 250 ms later
    and draws the offset 250 instead of 500.  Timestamp and offset both
    differ, the two identifiers are equal, and so are the two default
    usernames and the two default e-mail addresses. *)
Lemma different_readings_same_defaults :
  Date_now noon ≠ Date_now later ∧ offset noon ≠ offset later
  ∧ generateId noon = generateId later
  ∧ own (createUser noon no_argument) "username"
    = own (createUser later no_argument) "username"
  ∧ own (createUser noon no_argument) "email"
    = own (createUser later no_argument) "email".
Proof. by vm_compute. Qed.

(** C8 as amended.  [generateId] returns the clock reading plus an
    integer offset in [0, 1000).  Called without overrides, [createUser]
    sets [username] to "testuser" followed by the decimal numeral of the
    generated identifier and [email] to "test", the numeral and
    "@example.com"; two calls whose identifiers differ return different
    usernames and different e-mail addresses, and the identifiers differ
    whenever one of timestamp and offset differs and the other does
    not. *)
Theorem distinct_ids_distinct_defaults (w1 w2 : World) :
  World_ok w1 → World_ok w2 →
  (generateId w1 = Date_now w1 + offset w1 ∧ 0 ≤ offset w1 < 1000)
  ∧ own (createUser w1 no_argument) "username"
    = Some (VStr ("testuser" +:+ pretty (generateId w1)))
  ∧ own (createUser w1 no_argument) "email"
    = Some (VStr ("test" +:+ pretty (generateId w1) +:+ "@example.com"))
  ∧ (generateId w1 ≠ generateId w2 →
       own (createUser w1 no_argument) "username" ≠ own (createUser w2 no_argument) "username"
       ∧ own (createUser w1 no_argument) "email" ≠ own (createUser w2 no_argument) "email")
  ∧ (Date_now w1 = Date_now w2 → offset w1 ≠ offset w2 → generateId w1 ≠ generateId w2)
  ∧ (offset w1 = offset w2 → Date_now w1 ≠ Date_now w2 → generateId w1 ≠ generateId w2).
Proof.
  intros Hw1 Hw2.
  assert (∀ w, World_ok w →
            own (createUser w no_argument) "username"
            = Some (VStr ("testuser" +:+ pretty (generateId w)))
            ∧ own (createUser w no_argument) "email"
              = Some (VStr ("test" +:+ pretty (generateId w) +:+ "@example.com")))
    as Hdefaults.
  { intros w Hw. rewrite createUser_merge. unfold own, user_defaults.
    rewrite !lookup_merge, interpolate_decimal by done.
    generalize (pretty (generateId w)). intros numeral. by vm_compute. }
  destruct (Hdefaults w1 Hw1) as [Hu1 He1]. destruct (Hdefaults w2 Hw2) as [Hu2 He2].
  split; [split; [done | by apply offset_range] |].
  split; [done |]. split; [done |]. split; [| unfold generateId; lia].
  intros Hne. rewrite Hu1, Hu2, He1, He2.
  split; intros H; apply Hne; [apply username_inj | apply email_inj]; congruence.
Qed.

(** Two calls in the same millisecond with offsets 500 and 250. *)
Lemma distinct_ids_distinct_defaults_witness :
  World_ok noon ∧ World_ok noon'
  ∧ generateId noon = 1731844800500 ∧ generateId noon' = 1731844800250
  ∧ own (createUser noon no_argument) "username" = Some (VStr "testuser1731844800500")
  ∧ own (createUser noon no_argument) "email"
    ≠ own (createUser noon' no_argument) "email".
Proof.
  assert (World_ok noon) as H1 by (by vm_compute).
  assert (World_ok noon') as H2 by (by vm_compute).
  destruct (distinct_ids_distinct_defaults noon noon' H1 H2) as (_ & Hu & _ & Hne & _).
  split; [exact H1 |]. split; [exact H2 |].
  split; [reflexivity |]. split; [reflexivity |].
  split; [exact Hu |]. apply Hne. by vm_compute.
Defined.

(** *** Purity of the validators *)

Lemma validate_in_heap_runs (V : validator) (a : Heap.arg) (σ : Heap.heap) :
  runs (validate_in_heap V a) σ (λ r σ', r = validate V (Heap.deref σ a) ∧ σ ⊆ σ').
Proof.
  destruct V; [apply validatePost_runs | apply validateUser_runs | apply validateComment_runs].
Qed.

(** C9.  Run on a heap, each of the three validators ends with the
    outcome the function of the same name computes from the value of its
    argument alone: two invocations on equal values end alike, with the
    same error when they fail, in whatever heaps they run.  The heap it
    leaves holds every cell of the heap it started in, unchanged: it only
    allocates.  So an invocation made first, by any caller, on any
    argument, changes nothing of the outcome of the next one. *)
Theorem validators_pure_and_deterministic
    (V W : validator) (σ σ' : Heap.heap) (a a' b : Heap.arg) :
  Heap.outcome (validate_in_heap V a) σ = validate V (Heap.deref σ a)
  ∧ (Heap.deref σ a = Heap.deref σ' a' →
       Heap.outcome (validate_in_heap V a) σ = Heap.outcome (validate_in_heap V a') σ')
  ∧ σ ⊆ Heap.final (validate_in_heap V a) σ
  ∧ (Heap.allocated σ a →
       Heap.deref (Heap.final (validate_in_heap V a) σ) a = Heap.deref σ a)
  ∧ (Heap.allocated σ a →
       Heap.outcome (validate_in_heap V a) (Heap.final (validate_in_heap W b) σ)
       = Heap.outcome (validate_in_heap V a) σ).
Proof.
  pose proof (validate_in_heap_runs V a σ) as [Hout Hsub].
  pose proof (validate_in_heap_runs V a' σ') as [Hout' _].
  pose proof (validate_in_heap_runs W b σ) as [_ HsubW].
  pose proof (validate_in_heap_runs V a (Heap.final (validate_in_heap W b) σ)) as [HoutW _].
  split; [done |]. split; [intros Heq; by rewrite Hout, Hout', Heq |].
  split; [done |]. split.
  - intros Ha. by apply deref_grow.
  - intros Ha. by rewrite HoutW, Hout, (deref_grow σ).
Qed.

(** The sample post, shared in a heap: [validatePost] returns on it,
    before and after a call of [validateUser] on the same object. *)
Lemma validators_pure_and_deterministic_witness :
  Heap.allocated shared_post (Heap.Ref 1%positive)
  ∧ Heap.outcome (Heap.validatePost (Heap.Ref 1%positive)) shared_post = Return tt
  ∧ Heap.outcome (Heap.validatePost (Heap.Ref 1%positive))
      (Heap.final (Heap.validateUser (Heap.Ref 1%positive)) shared_post)
    = Return tt.
Proof.
  assert (Heap.allocated shared_post (Heap.Ref 1%positive)) as Ha by (by eexists).
  destruct (validators_pure_and_deterministic ForPost ForUser shared_post shared_post
              (Heap.Ref 1%positive) (Heap.Ref 1%positive) (Heap.Ref 1%positive))
    as (Hout & _ & _ & _ & Hnext).
  split; [exact Ha |].
  assert (Heap.outcome (Heap.validatePost (Heap.Ref 1%positive)) shared_post = Return tt)
    as Hfirst by (etrans; [exact Hout | reflexivity]).
  split; [exact Hfirst |]. etrans; [exact (Hnext Ha) | exact Hfirst].
Defined.

(** *** createUser and validateUser *)

(** C10.  When the overrides hold no [id], the object [createUser]
    returns has none either, and [validateUser] fails on it with the
    missing-fields error that names [id], the only required field it
    lacks; so it does on the user of a call without argument. *)
Theorem createUser_lacks_id (w : World) (o : value) :
  JS.spread o !! "id" = None →
  own (createUser w o) "id" = None
  ∧ has_key "id" (createUser w o) = false
  ∧ validateUser (createUser w o) = Throw (Error "User missing required fields: id")
  ∧ validateUser (createUser w no_argument) = Throw (Error "User missing required fields: id").
Proof.
  assert (∀ o', JS.spread o' !! "id" = None →
            own (createUser w o') "id" = None
            ∧ has_key "id" (createUser w o') = false
            ∧ validateUser (createUser w o')
              = Throw (Error "User missing required fields: id")) as Hgen.
  { intros o' Hid. rewrite createUser_merge.
    set (props := JS.spread o' ∪ user_defaults (generateId w)).
    assert (props !! "id" = None) as Hnone.
    { unfold props. by rewrite lookup_merge, Hid. }
    assert (∀ k, k ∈ ["name"; "username"; "email"] → is_Some (props !! k)) as Hsome.
    { intros k Hk. unfold props. rewrite lookup_merge.
      destruct (JS.spread o' !! k); [done |].
      repeat (apply elem_of_cons in Hk as [-> | Hk]; [by eexists |]).
      by apply elem_of_nil in Hk. }
    split; [done |].
    assert (missing_fields user_fields (VObj props) = ["id"]) as Hm.
    { unfold missing_fields, user_fields. simpl List.filter.
      rewrite !has_key_obj by done.
      rewrite (bool_decide_eq_false_2 (is_Some (props !! "id")))
        by (rewrite Hnone; by intros [? ?]).
      by rewrite !bool_decide_eq_true_2 by (apply Hsome; set_solver). }
    split; [rewrite has_key_obj by done; by rewrite Hnone, bool_decide_eq_false_2
              by (by intros [? ?]) |].
    rewrite validateUser_missing by (done || by rewrite Hm). by rewrite Hm. }
  intros Hid. destruct (Hgen o Hid) as (H1 & H2 & H3).
  destruct (Hgen no_argument eq_refl) as (_ & _ & H4). done.
Qed.

(** Overrides that set the name only. *)
Lemma createUser_lacks_id_witness :
  JS.spread (VObj {[ "name" := VStr "Ada" ]}) !! "id" = None
  ∧ validateUser (createUser noon (VObj {[ "name" := VStr "Ada" ]}))
    = Throw (Error "User missing required fields: id").
Proof.
  split; [reflexivity |].
  exact (proj1 (proj2 (proj2
    (createUser_lacks_id noon (VObj {[ "name" := VStr "Ada" ]}) eq_refl)))).
Defined.

(* ===================================================================== *)
(** ** Further properties: facts used below *)
(* ===================================================================== *)

Section FurtherFacts.

Lemma all_impl (p q : ascii → bool) (s : string) :
  (∀ c, p c = true → q c = true) → Str.all p s = true → Str.all q s = true.
Proof.
  intros Hpq. induction s as [|c s IH]; simpl; [done |].
  intros [Hc Hs]%andb_true_iff. by rewrite (Hpq c Hc), IH.
Qed.

Lemma pretty_N_go_all (p : ascii → bool) (x : N) (s : string) :
  (∀ d, p (pretty_N_char d) = true) → Str.all p s = true →
  Str.all p (pretty_N_go x s) = true.
Proof.
  intros Hp. revert s. induction (N.lt_wf_0 x) as [x _ IH]; intros s Hs.
  destruct (decide (x = 0%N)) as [-> | Hx]; [by rewrite pretty_N_go_0 |].
  rewrite pretty_N_go_step by lia. apply IH; [apply N.div_lt; lia |].
  simpl. by rewrite Hp, Hs.
Qed.

Lemma pretty_N_digits (x : N) : Str.all is_digit (pretty x) = true.
Proof.
  unfold pretty, pretty_N. case_decide; [done |].
  by apply pretty_N_go_all; [apply pretty_N_char_digit |].
Qed.

(** A decimal numeral is made of digits and, at most, a minus sign. *)
Lemma pretty_Z_chars (z : Z) : Str.all digit_or_minus (pretty z) = true.
Proof.
  assert (∀ x : N, Str.all digit_or_minus (pretty x) = true) as HN.
  { intros x. apply (all_impl is_digit); [| apply pretty_N_digits].
    intros c Hc. unfold digit_or_minus. by rewrite Hc. }
  destruct z as [|p|p]; [done | apply (HN (Npos p)) |].
  change (pretty (Zneg p)) with ("-" +:+ pretty (Npos p)).
  rewrite app_cons, app_nil_l. simpl. apply (HN (Npos p)).
Qed.

Lemma digit_or_minus_ok (c : ascii) :
  digit_or_minus c = true → not_space_or_at c = true.
Proof.
  unfold digit_or_minus, is_digit, not_space_or_at, Str.is_whitespace, Str.code.
  destruct c as [[] [] [] [] [] [] [] []]; by vm_compute.
Qed.

(** The default address of a user or a comment has the shape
    [emailRegex] accepts. *)
Lemma default_email_pattern (prefix : string) (z : Z) :
  prefix ≠ "" → Str.all not_space_or_at prefix = true →
  email_pattern (prefix +:+ pretty z +:+ "@example.com").
Proof.
  intros Hne Hall. exists (prefix +:+ pretty z), "example", "com".
  split; [by rewrite app_assoc |].
  split; [intros [? _]%app_eq_nil; done |].
  split; [done |]. split; [done |].
  split; [| done].
  rewrite all_app, Hall. simpl.
  apply (all_impl digit_or_minus), pretty_Z_chars. apply digit_or_minus_ok.
Qed.

(** The outcome of each validator on an object, from its properties. *)
Lemma missing_fields_obj (fields : list string) (props : gmap string value) :
  forallb plain_name fields = true →
  missing_fields fields (VObj props)
  = List.filter (λ k, negb (bool_decide (is_Some (props !! k)))) fields.
Proof.
  intros Hplain. unfold missing_fields. apply filter_ext_in_iff.
  intros k Hk. rewrite forallb_forall in Hplain. by rewrite has_key_obj by auto.
Qed.

Lemma merge_is_Some (over base : gmap string value) (k : string) :
  is_Some ((over ∪ base) !! k) ↔ is_Some (over !! k) ∨ is_Some (base !! k).
Proof.
  rewrite lookup_merge. destruct (over !! k) as [v|].
  - split; eauto.
  - split; [by right | by intros [[? ?] | ?]].
Qed.

Lemma present_in_merge (over base : gmap string value) (k : string) :
  is_Some (base !! k) → bool_decide (is_Some ((over ∪ base) !! k)) = true.
Proof. intros H. apply bool_decide_eq_true, merge_is_Some. by right. Qed.

Lemma absent_in_merge (over base : gmap string value) (k : string) :
  base !! k = None →
  bool_decide (is_Some ((over ∪ base) !! k)) = bool_decide (is_Some (over !! k)).
Proof.
  intros H. apply bool_decide_ext. rewrite merge_is_Some, H.
  split; [by intros [? | [? ?]] | by left].
Qed.

Lemma get_merge (over base : gmap string value) (k : string) :
  plain_name k = true →
  JS.get_property (VObj (over ∪ base)) k
  = Plain (default VUndefined (match over !! k with
                               | Some v => Some v
                               | None => base !! k
                               end)).
Proof. intros Hk. by rewrite get_property_obj, lookup_merge. Qed.

End FurtherFacts.

(* ===================================================================== *)
(** ** Further properties: factories and validators together *)
(* ===================================================================== *)

(** X1.  [createPost] sets no [id]: when the overrides bring none, the
    post it returns is refused by [validatePost], and the message names
    [id] alone, whatever else the overrides hold. *)
Theorem createPost_without_id_refused (o : value) :
  JS.spread o !! "id" = None →
  validatePost (createPost o) = Throw (Error "Post missing required fields: id").
Proof.
  intros Hid. rewrite createPost_merge.
  assert (missing_fields post_fields (VObj (JS.spread o ∪ post_defaults)) = ["id"]) as Hm.
  { rewrite missing_fields_obj by done. unfold post_fields. simpl List.filter.
    rewrite (absent_in_merge _ _ "id") by done.
    rewrite !present_in_merge by (by eexists).
    by rewrite Hid, bool_decide_eq_false_2 by (by intros [? ?]). }
  rewrite validatePost_missing by (done || by rewrite Hm). by rewrite Hm.
Qed.

(** The call without argument. *)
Lemma createPost_without_id_refused_witness :
  JS.spread no_argument !! "id" = None
  ∧ validatePost (createPost no_argument)
    = Throw (Error "Post missing required fields: id").
Proof.
  split; [reflexivity |]. exact (createPost_without_id_refused no_argument eq_refl).
Defined.

(** X2.  The defaults of [createPost] pass [validatePost]: with an [id]
    that is a positive number in the overrides, the post is accepted as
    long as each of [userId], [title], [body] is left to its default or
    overridden by a positive number, respectively a non-blank string. *)
Theorem createPost_with_id_accepted (o : value) (n : number) :
  JS.spread o !! "id" = Some (VNum n) → Num.positive n = true →
  (∀ v, JS.spread o !! "userId" = Some v → positive_number (Plain v) = true) →
  (∀ v, JS.spread o !! "title" = Some v → non_blank_string (Plain v) = true) →
  (∀ v, JS.spread o !! "body" = Some v → non_blank_string (Plain v) = true) →
  validatePost (createPost o) = Return tt.
Proof.
  intros Hid Hn Huid Htitle Hbody. rewrite createPost_merge.
  apply validatePost_Return_iff. split; [done |]. split.
  { unfold post_fields. repeat constructor; rewrite has_key_obj by done;
      apply bool_decide_eq_true, merge_is_Some; [left | right ..]; by eexists. }
  rewrite !get_merge by done. rewrite Hid. simpl default.
  split; [apply not_number_or_le_zero_false; by left |].
  split; [apply not_number_or_le_zero_false; left |].
  { destruct (JS.spread o !! "userId") as [v|] eqn:E; [by apply Huid | done]. }
  split.
  - destruct (JS.spread o !! "title") as [v|] eqn:E; [by apply Htitle | done].
  - destruct (JS.spread o !! "body") as [v|] eqn:E; [by apply Hbody | done].
Qed.

(** The update the tests send for post 1: an [id], a title and a body. *)
Lemma createPost_with_id_accepted_witness :
  JS.spread update_of_post_1 !! "id" = Some (num 1)
  ∧ validatePost (createPost update_of_post_1) = Return tt.
Proof.
  split; [reflexivity |].
  apply (createPost_with_id_accepted update_of_post_1 (Num.of_Z 1)).
  - reflexivity.
  - reflexivity.
  - intros v H. vm_compute in H. discriminate.
  - intros v H. vm_compute in H. injection H as <-. reflexivity.
  - intros v H. vm_compute in H. injection H as <-. reflexivity.
Defined.

(** X3.  [validateComment] accepts what [createComment] returns exactly
    when the overrides, an object with the own properties [props], bring
    an [id], of any value; without one, as in the call without
    argument, it fails and names [id] alone. *)
Theorem validateComment_of_createComment (w : World) (props : gmap string value) :
  validateComment (createComment w (VObj props))
  = (if bool_decide (is_Some (props !! "id")) then Return tt
     else Throw (Error "Comment missing required fields: id"))
  ∧ validateComment (createComment w no_argument)
    = Throw (Error "Comment missing required fields: id").
Proof.
  assert (∀ o, validateComment (createComment w o)
               = if bool_decide (is_Some (JS.spread o !! "id")) then Return tt
                 else Throw (Error "Comment missing required fields: id")) as Hgen.
  { intros o. rewrite createComment_merge.
    set (merged := JS.spread o ∪ comment_defaults (generateId w)).
    assert (missing_fields comment_fields (VObj merged)
            = if bool_decide (is_Some (JS.spread o !! "id")) then [] else ["id"]) as Hm.
    { rewrite missing_fields_obj by done. unfold comment_fields, merged. simpl List.filter.
      rewrite (absent_in_merge _ _ "id") by done.
      rewrite !present_in_merge by (by eexists).
      by destruct (bool_decide _). }
    destruct (bool_decide _).
    - by rewrite validateComment_present.
    - rewrite validateComment_missing by (done || by rewrite Hm). by rewrite Hm. }
  split; [apply (Hgen (VObj props)) | apply (Hgen no_argument)].
Qed.

(** The overrides of the comment tests: those of the update, with an
    [id], give a comment that is accepted; those of the creation,
    without one, give a comment that is refused. *)
Lemma validateComment_of_createComment_witness :
  own (createComment noon (VObj {[ "id" := num 1;
                                   "name" := VStr "Updated Comment Name";
                                   "body" := VStr "Updated comment body" ]})) "id"
  = Some (num 1)
  ∧ own (createComment noon no_argument) "id" = None
  ∧ validateComment
    (createComment noon (VObj {[ "id" := num 1;
                                 "name" := VStr "Updated Comment Name";
                                 "body" := VStr "Updated comment body" ]}))
  = Return tt
  ∧ validateComment
      (createComment noon
         (VObj {[ "name" := VStr "Automated Test Comment";
                  "body" := VStr "This is a test comment created by automation" ]}))
    = Throw (Error "Comment missing required fields: id").
Proof.
  split; [by vm_compute |]. split; [by vm_compute |]. split.
  - exact (proj1 (validateComment_of_createComment noon
                    {[ "id" := num 1;
                       "name" := VStr "Updated Comment Name";
                       "body" := VStr "Updated comment body" ]})).
  - exact (proj1 (validateComment_of_createComment noon
                    {[ "name" := VStr "Automated Test Comment";
                       "body" := VStr "This is a test comment created by automation" ]})).
Defined.

(** X4.  The default address of [createUser] passes the format check of
    [validateUser]: with an [id] in the overrides, of any value, and the
    [email] left to its default, the user is accepted. *)
Theorem createUser_with_id_accepted (w : World) (o : value) :
  World_ok w → is_Some (JS.spread o !! "id") → JS.spread o !! "email" = None →
  validateUser (createUser w o) = Return tt.
Proof.
  intros Hw Hid Hemail. rewrite createUser_merge.
  apply validateUser_Return_iff. split; [done |]. split.
  { unfold user_fields. repeat constructor; rewrite has_key_obj by done;
      apply bool_decide_eq_true, merge_is_Some; [by left | right ..]; by eexists. }
  rewrite get_merge, Hemail by done.
  exists ("test" +:+ pretty (generateId w) +:+ "@example.com"). split.
  - unfold user_defaults. rewrite interpolate_decimal by done.
    generalize (pretty (generateId w)). intros numeral. by vm_compute.
  - by apply default_email_pattern.
Qed.

(** The update the tests send for user 1. *)
Lemma createUser_with_id_accepted_witness :
  World_ok noon ∧ is_Some (JS.spread update_of_user_1 !! "id")
  ∧ validateUser (createUser noon update_of_user_1) = Return tt.
Proof.
  assert (World_ok noon) as Hw by (by vm_compute).
  assert (is_Some (JS.spread update_of_user_1 !! "id")) as Hid by (by eexists).
  split; [exact Hw |]. split; [exact Hid |].
  exact (createUser_with_id_accepted noon update_of_user_1 Hw Hid eq_refl).
Defined.

(* ===================================================================== *)
(** ** Further properties: edge behaviour of the validators *)
(* ===================================================================== *)

(** X5.  An array passes the first check of every validator, being an
    object, and is refused by the second: it has none of the required
    fields, and the message lists them all. *)
Theorem validators_refuse_arrays (elems : list value) :
  validatePost (VArr elems)
  = Throw (Error "Post missing required fields: id, userId, title, body")
  ∧ validateUser (VArr elems)
    = Throw (Error "User missing required fields: id, name, username, email")
  ∧ validateComment (VArr elems)
    = Throw (Error "Comment missing required fields: id, postId, name, email, body").
Proof.
  split; [| split].
  - rewrite validatePost_missing; by rewrite ?missing_fields_arr.
  - rewrite validateUser_missing; by rewrite ?missing_fields_arr.
  - rewrite validateComment_missing; by rewrite ?missing_fields_arr.
Qed.

(** X6.  The guard in front of the [in] operator holds: on no value,
    primitive or not, do [validatePost] and [validateComment] end with a
    TypeError, and [validateUser] does only when all four fields are
    there and the conversion of [email] to a string raises it. *)
Theorem validators_TypeError (v : value) :
  validatePost v ≠ Throw TypeError
  ∧ validateComment v ≠ Throw TypeError
  ∧ (validateUser v = Throw TypeError ↔
       is_object v = true
       ∧ Forall (λ k, has_key k v = true) user_fields
       ∧ ToString_ref (JS.get_property v "email") = Throw TypeError).
Proof.
  split; [| split].
  - destruct (is_object v) eqn:Hobj; [| by rewrite validatePost_not_object].
    destruct (missing_fields post_fields v) as [|f m] eqn:Hm.
    + rewrite validatePost_present by done. by repeat case_match.
    + by rewrite validatePost_missing by (done || congruence).
  - destruct (is_object v) eqn:Hobj; [| by rewrite validateComment_not_object].
    destruct (missing_fields comment_fields v) as [|f m] eqn:Hm.
    + by rewrite validateComment_present.
    + by rewrite validateComment_missing by (done || congruence).
  - rewrite <- missing_fields_nil.
    destruct (is_object v) eqn:Hobj; [| rewrite validateUser_not_object by done; naive_solver].
    destruct (missing_fields user_fields v) as [|f m] eqn:Hm.
    + rewrite validateUser_present by done.
      destruct (ToString_ref _) as [s|e]; [| naive_solver].
      destruct (RegExp.matches emailRegex s); naive_solver.
    + rewrite validateUser_missing by (done || congruence). naive_solver.
Qed.

(** X7.  An [email] that is [undefined], [null], a boolean or a nested
    object is refused by [validateUser] on every user that has the four
    fields: with the format error, or, for an object with a [toString]
    property of its own, with the TypeError of the conversion. *)
Theorem validateUser_email_of_other_kind (props : gmap string value) (email : value) (x : exn) :
  Forall (λ k, is_Some (props !! k)) user_fields →
  props !! "email" = Some email → email_refusal email = Some x →
  validateUser (VObj props) = Throw x.
Proof.
  intros Hkeys Hemail Hx.
  assert (missing_fields user_fields (VObj props) = []) as Hm.
  { apply missing_fields_nil. eapply Forall_impl; [exact Hkeys |].
    intros k Hk. simpl. unfold has_key, JS.has_property.
    by rewrite (bool_decide_eq_true_2 _ Hk). }
  rewrite validateUser_present, get_property_obj, Hemail by done. simpl default.
  destruct email as [| |[]| | |m|]; simpl in *; try discriminate;
    try (injection Hx as <-; done).
  destruct (m !! "toString"); injection Hx as <-; done.
Qed.

(** The sample user with a nested object for [email]. *)
Lemma validateUser_email_of_other_kind_witness :
  Forall (λ k, is_Some (user_with_object_email !! k)) user_fields
  ∧ validateUser (VObj user_with_object_email)
    = Throw (Error "User email must be valid format").
Proof.
  assert (Forall (λ k, is_Some (user_with_object_email !! k)) user_fields) as Hkeys
    by (repeat constructor; by eexists).
  split; [exact Hkeys |].
  exact (validateUser_email_of_other_kind user_with_object_email _ _ Hkeys eq_refl eq_refl).
Defined.

Lemma count_char_app (c : ascii) (s t : string) :
  count_char c (s +:+ t) = (count_char c s + count_char c t)%nat.
Proof.
  induction s as [|a s IH]; [done |]. rewrite app_cons. simpl. rewrite IH. lia.
Qed.

Lemma count_char_excluded (p : ascii → bool) (c : ascii) (s : string) :
  p c = false → Str.all p s = true → count_char c s = O.
Proof.
  intros Hc. induction s as [|a s IH]; simpl; [done |].
  intros [Ha Hs]%andb_true_iff. rewrite IH by done.
  destruct (Ascii.eqb_spec a c) as [-> | _]; [congruence | done].
Qed.

Lemma not_space_or_at_not_space (c : ascii) : not_space_or_at c = true → not_space c = true.
Proof.
  unfold not_space_or_at, not_space. rewrite !negb_true_iff.
  by intros [? _]%orb_false_iff.
Qed.

Lemma nonempty_length (s : string) : s ≠ "" → (1 ≤ String.length s)%nat.
Proof. destruct s; [done | simpl; lia]. Qed.

(** X8.  What [emailRegex] never accepts: a text with whitespace, with no
    [@] or more than one, with no dot after the [@], or of fewer than five
    characters. *)
Theorem emailRegex_necessary (s : string) :
  RegExp.matches emailRegex s = true →
  count_char "@" s = 1%nat
  ∧ Str.all not_space s = true
  ∧ (1 ≤ count_char "." s)%nat
  ∧ (5 ≤ String.length s)%nat.
Proof.
  intros (l & d & t & -> & Hl & Hd & Ht & Hl' & Hd' & Ht')%emailRegex_spec.
  split; [| split; [| split]].
  - rewrite !count_char_app.
    rewrite (count_char_excluded not_space_or_at "@" l),
      (count_char_excluded not_space_or_at "@" d),
      (count_char_excluded not_space_or_at "@" t) by done. done.
  - rewrite !all_app.
    rewrite (all_impl _ _ l not_space_or_at_not_space Hl'),
      (all_impl _ _ d not_space_or_at_not_space Hd'),
      (all_impl _ _ t not_space_or_at_not_space Ht'). done.
  - rewrite !count_char_app. simpl. lia.
  - rewrite !app_length. simpl.
    apply nonempty_length in Hl, Hd, Ht. lia.
Qed.

Lemma emailRegex_necessary_witness :
  RegExp.matches emailRegex "a@b.co" = true ∧ count_char "@" "a@b.co" = 1%nat.
Proof.
  split; [reflexivity |]. exact (proj1 (emailRegex_necessary "a@b.co" eq_refl)).
Defined.

(** Each known kind names an object without [id]. *)
Lemma invalidPatterns_kind (k : string) :
  k ∈ kinds →
  ∃ payload, JS.get_property invalidPatterns k = Plain (VObj payload)
             ∧ payload !! "id" = None.
Proof.
  intros Hk. unfold kinds in Hk.
  repeat (apply elem_of_cons in Hk as [-> | Hk];
          [match goal with
           | |- ∃ payload, JS.get_property _ ?kind = _ ∧ _ =>
               exists (match JS.get_property invalidPatterns kind with
                       | Plain (VObj payload) => payload
                       | _ => ∅
                       end)
           end; split; by vm_compute |]).
  by apply elem_of_nil in Hk.
Qed.

(** X9.  Every datum [createInvalidData] returns, for a kind it knows or
    not, is a payload [validatePost] refuses for its missing fields, [id]
    among them. *)
Theorem createInvalidData_refused (type v : value) :
  createInvalidData type = Return (Plain v) →
  "id" ∈ missing_fields post_fields v
  ∧ validatePost v = Throw (Error (missing_message "Post" (missing_fields post_fields v))).
Proof.
  unfold createInvalidData. destruct (JS.ToString type) as [k|e] eqn:Hkey; [| done].
  unfold mbind, result_bind.
  assert (∀ payload : gmap string value, payload !! "id" = None →
            "id" ∈ missing_fields post_fields (VObj payload)
            ∧ validatePost (VObj payload)
              = Throw (Error (missing_message "Post"
                                (missing_fields post_fields (VObj payload)))))
    as Hrefused.
  { intros payload Hid.
    assert ("id" ∈ missing_fields post_fields (VObj payload)) as Hin.
    { apply missing_fields_elem. split; [unfold post_fields; set_solver |].
      rewrite has_key_obj by done. rewrite Hid.
      by apply bool_decide_eq_false_2; intros [? ?]. }
    split; [done |]. rewrite validatePost_missing; [done | done |].
    intros Hnil. rewrite Hnil in Hin. by apply elem_of_nil in Hin. }
  destruct (decide (k ∈ kinds)) as [Hk | Hk].
  - destruct (invalidPatterns_kind k Hk) as (payload & -> & Hid).
    cbn [JS.truthy_ref JS.truthy]. intros [= <-]. by apply Hrefused.
  - rewrite invalidPatterns_lookup by done.
    destruct (assoc k Object_prototype); [done |].
    cbn [JS.truthy_ref JS.truthy]. intros [= <-]. by apply Hrefused.
Qed.

Lemma createInvalidData_refused_witness :
  createInvalidData (VStr "sqlInjection")
  = Return (Plain (VObj {[ "title" := VStr "'; DROP TABLE posts; --";
                           "body" := VStr "1 OR 1=1" ]}))
  ∧ validatePost (VObj {[ "title" := VStr "'; DROP TABLE posts; --";
                          "body" := VStr "1 OR 1=1" ]})
    = Throw (Error "Post missing required fields: id, userId").
Proof.
  split; [reflexivity |].
  exact (proj2 (createInvalidData_refused (VStr "sqlInjection") _ eq_refl)).
Defined.

Lemma defaults_same_keys (d d' : gmap string value) (k : string) :
  (d = post_defaults ∧ d' = post_defaults)
  ∨ (∃ i j, d = user_defaults i ∧ d' = user_defaults j)
  ∨ (∃ i j, d = comment_defaults i ∧ d' = comment_defaults j) →
  d !! k = None → d' !! k = None.
Proof.
  intros [[-> ->] | [(i & j & -> & ->) | (i & j & -> & ->)]]; [done | |].
  - unfold user_defaults. rewrite !lookup_insert_None, !lookup_singleton_None. tauto.
  - unfold comment_defaults. rewrite !lookup_insert_None, !lookup_singleton_None. tauto.
Qed.

Lemma merge_absorbs (over d d' : gmap string value) :
  (∀ k, d !! k = None → d' !! k = None) → (over ∪ d) ∪ d' = over ∪ d.
Proof.
  intros Hkeys. apply map_eq. intros k. rewrite lookup_merge.
  destruct ((over ∪ d) !! k) as [v|] eqn:E; [done |].
  apply Hkeys. rewrite lookup_merge in E. by destruct (over !! k).
Qed.

(** X10.  The factories are idempotent: given its own result as
    overrides, a factory returns it unchanged, also when the second call
    reads another clock and another random number, since every default
    it would set is already there. *)
Theorem factories_idempotent (w w' : World) (o : value) :
  createPost (createPost o) = createPost o
  ∧ createUser w' (createUser w o) = createUser w o
  ∧ createComment w' (createComment w o) = createComment w o.
Proof.
  rewrite !createPost_merge, !createUser_merge, !createComment_merge.
  cbn [JS.spread]. split; [| split]; f_equal; apply merge_absorbs; intros k;
    apply defaults_same_keys.
  - by left.
  - right. left. by exists (generateId w), (generateId w').
  - right. right. by exists (generateId w), (generateId w').
Qed.

Lemma index_key_inj : Inj (=) (=) JS.index_key.
Proof. intros i j H. by apply (inj pretty) in H. Qed.

Lemma index_key_not_plain (i : nat) (k : string) : plain_name k = true → JS.index_key i ≠ k.
Proof.
  intros Hk <-. destruct (index_key_last i) as (d & Hd & Hdig).
  unfold plain_name in Hk. by rewrite Hd, Hdig in Hk.
Qed.

(** The own properties of an array-like: the element at each index. *)
Lemma array_own_lookup (elems : list value) (i : nat) :
  (list_to_map (JS.array_own elems) : gmap string value) !! JS.index_key i = elems !! i.
Proof.
  unfold JS.array_own, JS.index_keys.
  assert (NoDup (zip (map JS.index_key (seq 0 (length elems))) elems).*1) as Hnodup.
  { rewrite fst_zip by (rewrite length_map, length_seq; lia).
    apply (NoDup_fmap_2 _), NoDup_seq. }
  destruct (elems !! i) as [v|] eqn:E.
  - apply elem_of_list_to_map; [done |]. apply list_elem_of_lookup. exists i.
    apply lookup_zip_with_Some. exists (JS.index_key i), v. split; [done |]. split; [| done].
    apply lookup_lt_Some in E as Hi.
    change (map JS.index_key (seq 0 (length elems)))
      with (JS.index_key <$> seq 0 (length elems)).
    by rewrite list_lookup_fmap, lookup_seq_lt.
  - apply not_elem_of_list_to_map.
    rewrite fst_zip by (rewrite length_map, length_seq; lia).
    intros (j & Hj%(inj _) & Hin)%list_elem_of_fmap. subst j.
    apply elem_of_seq in Hin. apply lookup_ge_None in E. lia.
Qed.

Lemma array_own_plain (elems : list value) (k : string) :
  plain_name k = true →
  (list_to_map (JS.array_own elems) : gmap string value) !! k = None.
Proof.
  intros Hk. apply not_elem_of_list_to_map. unfold JS.array_own, JS.index_keys.
  rewrite fst_zip by (rewrite length_map, length_seq; lia).
  intros (j & -> & _)%list_elem_of_fmap. by apply (index_key_not_plain j) in Hk.
Qed.

Lemma defaults_no_index (i : nat) (id : Z) :
  post_defaults !! JS.index_key i = None
  ∧ user_defaults id !! JS.index_key i = None
  ∧ comment_defaults id !! JS.index_key i = None.
Proof.
  unfold post_defaults, user_defaults, comment_defaults.
  rewrite !lookup_insert_None, !lookup_singleton_None.
  repeat split; intros H; symmetry in H; by apply index_key_not_plain in H.
Qed.

(** The keys of the defaults are plain names. *)
Lemma default_keys_plain (id : Z) (k : string) :
  is_Some (post_defaults !! k) ∨ is_Some (user_defaults id !! k)
  ∨ is_Some (comment_defaults id !! k) →
  plain_name k = true.
Proof.
  unfold post_defaults, user_defaults, comment_defaults.
  rewrite !lookup_insert_is_Some', !lookup_singleton_is_Some.
  intros H. repeat (destruct H as [H | H]); by subst k.
Qed.

(** X11.  Overrides that are no object.  [null], a boolean or a number
    is passed over like a missing argument by the three factories.  A
    string or an array is spread by index by the three factories: the
    result holds each character or element under the name of its index,
    and every default under its key. *)
Theorem overrides_of_other_kinds (w : World) (o : value) (items : list value)
    (i : nat) (k : string) :
  (spreads_nothing o = true →
     createPost o = createPost no_argument
     ∧ createUser w o = createUser w no_argument
     ∧ createComment w o = createComment w no_argument)
  ∧ (array_like o = Some items →
     own (createPost o) (JS.index_key i) = items !! i
     ∧ own (createUser w o) (JS.index_key i) = items !! i
     ∧ own (createComment w o) (JS.index_key i) = items !! i
     ∧ (is_Some (post_defaults !! k) → own (createPost o) k = post_defaults !! k)
     ∧ (is_Some (user_defaults (generateId w) !! k) →
        own (createUser w o) k = user_defaults (generateId w) !! k)
     ∧ (is_Some (comment_defaults (generateId w) !! k) →
        own (createComment w o) k = comment_defaults (generateId w) !! k)).
Proof.
  destruct (defaults_no_index i (generateId w)) as (Hp & Hu & Hc).
  split; [by destruct o |].
  intros Hitems.
  assert (JS.spread o = list_to_map (JS.array_own items)) as Hlike.
  { destruct o; simpl in *; try discriminate; by injection Hitems as <-. }
  rewrite !createPost_merge, !createUser_merge, !createComment_merge. unfold own.
  rewrite !lookup_merge, !Hlike, !array_own_lookup, Hp, Hu, Hc.
  split; [by case_match |]. split; [by case_match |]. split; [by case_match |].
  split; [| split]; intros Hk; rewrite array_own_plain; try done;
    apply (default_keys_plain (generateId w)); auto.
Qed.

(** [null] as overrides; the string ["ab"] as overrides of each factory:
    the second character under ["1"], the defaults kept. *)
Lemma overrides_of_other_kinds_witness :
  spreads_nothing VNull = true ∧ createPost VNull = createPost no_argument
  ∧ array_like (VStr "ab") = Some [VStr "a"; VStr "b"]
  ∧ createPost (VStr "ab")
    = VObj {[ "userId" := num 1; "title" := VStr "Test Post Title";
              "body" := VStr "This is a test post body with meaningful content.";
              "0" := VStr "a"; "1" := VStr "b" ]}
  ∧ own (createPost (VStr "ab")) "1" = Some (VStr "b")
  ∧ own (createUser noon (VStr "ab")) "1" = Some (VStr "b")
  ∧ own (createComment noon (VStr "ab")) "1" = Some (VStr "b")
  ∧ own (createPost (VStr "ab")) "title" = Some (VStr "Test Post Title")
  ∧ own (createUser noon (VStr "ab")) "name" = Some (VStr "Test User")
  ∧ own (createComment noon (VStr "ab")) "name" = Some (VStr "Test Comment").
Proof.
  split; [reflexivity |].
  split; [exact (proj1 (proj1 (overrides_of_other_kinds noon VNull [] 0 "") eq_refl)) |].
  split; [reflexivity |]. split; [by vm_compute |].
  destruct (proj2 (overrides_of_other_kinds noon (VStr "ab") [VStr "a"; VStr "b"] 1 "title")
              eq_refl) as (H1 & H2 & H3 & H4 & _).
  destruct (proj2 (overrides_of_other_kinds noon (VStr "ab") [VStr "a"; VStr "b"] 1 "name")
              eq_refl) as (_ & _ & _ & _ & H5 & H6).
  split; [exact H1 |]. split; [exact H2 |]. split; [exact H3 |].
  split; [exact (H4 ltac:(by eexists)) |].
  split; [exact (H5 ltac:(by eexists)) | exact (H6 ltac:(by eexists))].
Defined.

(** X12.  [validatePost] looks at the four required fields and at
    nothing else: two objects that hold the same in [id], [userId],
    [title] and [body] get the same outcome. *)
Theorem validatePost_other_fields (props props' : gmap string value) :
  (∀ k, k ∈ post_fields → props !! k = props' !! k) →
  validatePost (VObj props) = validatePost (VObj props').
Proof.
  intros Hsame.
  assert (missing_fields post_fields (VObj props)
          = missing_fields post_fields (VObj props')) as Hm.
  { apply missing_fields_ext; [done |]. intros k Hk. by rewrite Hsame. }
  assert (∀ k, k ∈ post_fields →
            JS.get_property (VObj props) k = JS.get_property (VObj props') k) as Hget.
  { intros k Hk. unfold JS.get_property. by rewrite Hsame. }
  destruct (missing_fields post_fields (VObj props)) as [|f m] eqn:E.
  - rewrite !validatePost_present by done.
    assert (Forall (λ k, k ∈ post_fields) post_fields) as Hall
      by (apply Forall_forall; auto).
    unfold post_fields in Hall at 2.
    repeat (apply Forall_cons in Hall as [Hk Hall]; rewrite (Hget _ Hk); clear Hk).
    done.
  - rewrite !validatePost_missing by (done || congruence). by rewrite E, Hm.
Qed.

(** The sample post with a field more. *)
Lemma validatePost_other_fields_witness :
  (∀ k, k ∈ post_fields → post_with_extra_field !! k = sample_post !! k)
  ∧ validatePost (VObj post_with_extra_field) = validatePost (VObj sample_post).
Proof.
  assert (∀ k, k ∈ post_fields → post_with_extra_field !! k = sample_post !! k) as Hsame.
  { intros k Hk. unfold post_with_extra_field. apply lookup_insert_ne.
    intros <-. unfold post_fields in Hk. set_solver. }
  split; [exact Hsame |].
  exact (validatePost_other_fields post_with_extra_field sample_post Hsame).
Defined.

Lemma commenter_inj (i j : Z) :
  "commenter" +:+ pretty i +:+ "@example.com" = "commenter" +:+ pretty j +:+ "@example.com" →
  i = j.
Proof.
  intros H. apply (inj (String.app "commenter")) in H.
  by apply app_inv_tail, (inj pretty) in H.
Qed.

(** X13.  Called without overrides, [createComment] sets [email] to
    "commenter", the decimal numeral of the generated identifier and
    "@example.com": an address of the shape [emailRegex] accepts, and a
    different one for a different identifier. *)
Theorem createComment_default_email (w1 w2 : World) :
  World_ok w1 → World_ok w2 →
  own (createComment w1 no_argument) "email"
  = Some (VStr ("commenter" +:+ pretty (generateId w1) +:+ "@example.com"))
  ∧ RegExp.matches emailRegex ("commenter" +:+ pretty (generateId w1) +:+ "@example.com")
    = true
  ∧ (generateId w1 ≠ generateId w2 →
     own (createComment w1 no_argument) "email" ≠ own (createComment w2 no_argument) "email").
Proof.
  intros Hw1 Hw2.
  assert (∀ w, World_ok w →
            own (createComment w no_argument) "email"
            = Some (VStr ("commenter" +:+ pretty (generateId w) +:+ "@example.com")))
    as Hdefault.
  { intros w Hw. rewrite createComment_merge. unfold own, comment_defaults.
    rewrite lookup_merge, interpolate_decimal by done.
    generalize (pretty (generateId w)). intros numeral. by vm_compute. }
  split; [by apply Hdefault |]. split.
  - by apply emailRegex_spec, default_email_pattern.
  - intros Hne. rewrite !Hdefault by done. intros H. apply Hne, commenter_inj. congruence.
Qed.

Lemma createComment_default_email_witness :
  World_ok noon ∧ World_ok noon'
  ∧ own (createComment noon no_argument) "email"
    = Some (VStr "commenter1731844800500@example.com")
  ∧ own (createComment noon no_argument) "email"
    ≠ own (createComment noon' no_argument) "email".
Proof.
  assert (World_ok noon) as H1 by (by vm_compute).
  assert (World_ok noon') as H2 by (by vm_compute).
  destruct (createComment_default_email noon noon' H1 H2) as (He & _ & Hne).
  split; [exact H1 |]. split; [exact H2 |]. split; [exact He |].
  apply Hne. by vm_compute.
Defined.

(** X14.  [validateUser] and [validateComment] report the missing fields
    before anything else, all of them in one message: a user that lacks
    required fields fails with that message whatever its [email] is
    like, and every field that is missing occurs in the message. *)
Theorem missing_fields_reported_first (v : value) :
  is_object v = true →
  (missing_fields user_fields v ≠ [] →
     validateUser v = Throw (Error (missing_message "User" (missing_fields user_fields v))))
  ∧ (missing_fields comment_fields v ≠ [] →
     validateComment v
     = Throw (Error (missing_message "Comment" (missing_fields comment_fields v))))
  ∧ (∀ what fields f, f ∈ fields → has_key f v = false →
       Str.occurs_in f (missing_message what (missing_fields fields v))).
Proof.
  intros Hobj. split; [| split].
  - intros Hm. by rewrite validateUser_missing.
  - intros Hm. by rewrite validateComment_missing.
  - intros what fields f Hf Hmiss. unfold missing_message.
    apply occurs_in_app_r, occurs_in_app_r, join_occurs, missing_fields_elem. done.
Qed.

(** A user without [id] and [name], and with an [email] that is no
    address: the failure names the two fields. *)
Lemma missing_fields_reported_first_witness :
  is_object user_without_id_and_name = true
  ∧ validateUser user_without_id_and_name
    = Throw (Error "User missing required fields: id, name").
Proof.
  split; [reflexivity |].
  destruct (missing_fields_reported_first user_without_id_and_name eq_refl) as [H _].
  rewrite H; [reflexivity | by vm_compute].
Defined.
